(** * pymcwrapper: a shallow embedding of the wrapper's dispatch and supervision code

    The development follows the Python sources module by module:
    - [Py]       : the pieces of the Python runtime the sources rely on
                   (exceptions, [str] methods, list indexing, [%], threads);
    - [Event]    : the event classes of event.py, job.py and observer.py;
    - [Job]      : job.py ([CommandSequenceJob]);
    - [Observer] : observer.py ([DirectoryObserver]);
    - [Config]   : mc_server_wrapper_config.py;
    - [Wrapper]  : mc_server_wrapper.py ([MCServerWrapper]).

    Strings are Rocq strings whose characters stand for the code points
    below 256. Python integers are [Z]. Every method of the wrapper is a
    computation in a state-and-exception monad over the wrapper object; what
    a method does to the outside world (console, child process, threads) is
    appended to a trace of actions.

    Each thread is followed on its own. A call that blocks ([Lock.acquire],
    [Thread.join], [Popen.wait]) is described by the state in which it
    returns; writing to the console and to the child's input succeeds. What
    the other threads and the world decide is a parameter: the outcome of
    each wait of a job, the lines the console and the child deliver, the
    answers of the operating system in [Env]. *)

From Stdlib Require Import ZArith QArith.QArith_base String Ascii DecimalString.
From stdpp Require Import base option list strings gmap.

Local Open Scope string_scope.
Local Open Scope list_scope.

(** ** The Python runtime *)

Module Py.

(** Exception classes that occur in the sources, and two open-ended
    constructors for classes raised by code loaded at run time. The classes
    from [SystemExit] on derive from [BaseException] only. *)
Inductive ExcClass :=
| ZeroDivisionError
| IndexError
| AttributeError
| RuntimeError
| ValueError
| TypeError
| ModuleNotFoundError
| FileNotFoundError
| IsADirectoryError
| EOFError
| OtherException (name : string)
| SystemExit
| KeyboardInterrupt
| GeneratorExit
| OtherBaseException (name : string).

(** [isinstance(e, Exception)] *)
Definition is_Exception (c : ExcClass) : bool :=
  match c with
  | SystemExit | KeyboardInterrupt | GeneratorExit | OtherBaseException _ => false
  | _ => true
  end.

(** An exception object: its class and [e.args], each argument rendered by
    [str]. *)
Record Exn := mkExn { exc_class : ExcClass; exc_args : list string }.

Inductive Res (A : Type) :=
| Ok (a : A)
| Raise (e : Exn).
Arguments Ok {A} a.
Arguments Raise {A} e.

Definition res_bind {A B} (r : Res A) (k : A -> Res B) : Res B :=
  match r with
  | Ok a => k a
  | Raise e => Raise e
  end.

(** [a % b] on integers: the result has the sign of [b]; a zero divisor
    raises. *)
Definition mod_ (a b : Z) : Res Z :=
  if (b =? 0)%Z
  then Raise (mkExn ZeroDivisionError ["integer division or modulo by zero"])
  else Ok (a mod b)%Z.

(** [l[i]]: negative indices count from the end, anything else out of range
    raises. *)
Definition getitem {A} (l : list A) (i : Z) : Res A :=
  let n := Z.of_nat (length l) in
  let j := if (i <? 0)%Z then (n + i)%Z else i in
  if (0 <=? j)%Z && (j <? n)%Z
  then match l !! Z.to_nat j with
       | Some x => Ok x
       | None => Raise (mkExn IndexError ["list index out of range"])
       end
  else Raise (mkExn IndexError ["list index out of range"]).

(** [t[i]] on a tuple, here [e.args]: as on a list, with the tuple's own
    message. *)
Definition tuple_getitem {A} (t : list A) (i : Z) : Res A :=
  match getitem t i with
  | Ok x => Ok x
  | Raise _ => Raise (mkExn IndexError ["tuple index out of range"])
  end.

(** Characters that a Rocq string literal cannot spell: line feed, escape,
    tabulator and the double quote. *)
Definition LF : string := String (ascii_of_nat 10) EmptyString.
Definition ESC : string := String (ascii_of_nat 27) EmptyString.
Definition TAB : string := String (ascii_of_nat 9) EmptyString.
Definition DQUOTE : string := String (ascii_of_nat 34) EmptyString.

(** [sep.join(l)] *)
Definition join (sep : string) (l : list string) : string := String.concat sep l.

(** [str(n)] for a length *)
Definition str_of_nat (n : nat) : string := NilEmpty.string_of_uint (Nat.to_uint n).

(** [c.isspace()] on the code points below 256: TAB..CR, FS..US, space,
    NEL and the no-break space. *)
Definition isspace (c : ascii) : bool :=
  let n := nat_of_ascii c in
  ((9 <=? n)%nat && (n <=? 13)%nat) || ((28 <=? n)%nat && (n <=? 32)%nat)
  || (n =? 133)%nat || (n =? 160)%nat.

(** [s.lstrip()] *)
Fixpoint lstrip (s : string) : string :=
  match s with
  | EmptyString => EmptyString
  | String c s' => if isspace c then lstrip s' else s
  end.

(** [s.rstrip()]: a character goes when it is a space and nothing but
    spaces follows it. *)
Fixpoint rstrip (s : string) : string :=
  match s with
  | EmptyString => EmptyString
  | String c s' =>
      match rstrip s' with
      | EmptyString => if isspace c then EmptyString else String c EmptyString
      | r => String c r
      end
  end.

(** [s.strip()] *)
Definition strip (s : string) : string := rstrip (lstrip s).

(** The longest prefix without a space, and what follows it. *)
Fixpoint span_token (s : string) : string * string :=
  match s with
  | EmptyString => (EmptyString, EmptyString)
  | String c s' =>
      if isspace c then (EmptyString, s)
      else let (tok, rest) := span_token s' in (String c tok, rest)
  end.

(** [s.split(maxsplit=1)]: leading spaces are skipped, the first token is
    cut at the first space, the spaces after it are skipped and whatever is
    left, if anything, is the second element. *)
Definition split_maxsplit1 (s : string) : list string :=
  match lstrip s with
  | EmptyString => []
  | s1 =>
      let (tok, rest) := span_token s1 in
      match lstrip rest with
      | EmptyString => [tok]
      | rest' => [tok; rest']
      end
  end.

(** [s.split()]: the maximal runs of non-space characters. [cur] is the
    token being read. *)
Fixpoint split_from (cur : option string) (s : string) : list string :=
  match s with
  | EmptyString => match cur with Some t => [t] | None => [] end
  | String c s' =>
      if isspace c
      then match cur with
           | Some t => t :: split_from None s'
           | None => split_from None s'
           end
      else split_from (Some (default EmptyString cur +:+ String c EmptyString)) s'
  end.

Definition split (s : string) : list string := split_from None s.

(** [threading.Thread]: [start] may be called once, [join] only after it. *)
Inductive ThreadState := Unstarted | Alive | Dead.

Definition is_alive (t : ThreadState) : bool :=
  match t with Alive => true | _ => false end.

End Py.

Export Py.

(** ** Events (event.py, job.py, observer.py)

    The queue can hold any object; [OtherEvent] stands for an instance of a
    class that is none of the four, with its class name and its [str]. *)

Inductive Event :=
| ExitEvent
| InputEvent (text : string)
| CommandSequenceJobEvent (title text : string)
| DirectoryObserverFileChangeEvent (filepath : string)
| OtherEvent (class_name repr : string).

(** [type(event).__name__] *)
Definition type_name (e : Event) : string :=
  match e with
  | ExitEvent => "ExitEvent"
  | InputEvent _ => "InputEvent"
  | CommandSequenceJobEvent _ _ => "CommandSequenceJobEvent"
  | DirectoryObserverFileChangeEvent _ => "DirectoryObserverFileChangeEvent"
  | OtherEvent n _ => n
  end.

(** ** job.py *)

Module Job.

Record CommandSequenceJob := mkJob {
  _title : string;
  _delay : Q;
  _length : Z;
  _index : Z;
  _command_texts : list string;
  _stop_event : bool;
  _thread : ThreadState
}.

(** [CommandSequenceJob.__init__]; the event queue is shared with the
    wrapper and is passed to the thread's loop instead. *)
Definition __init__ (title : string) (delay : Q) (index : Z)
    (groups : list (list string)) : Res CommandSequenceJob :=
  let len := Z.of_nat (length groups) in
  res_bind (mod_ index len) (fun index' =>
  Ok {| _title := title;
        _delay := delay;
        _length := len;
        _index := index';
        _command_texts := map (fun commands => Py.join LF commands +:+ LF) groups;
        _stop_event := false;
        _thread := Unstarted |}).

Definition set_index (i : Z) (j : CommandSequenceJob) : CommandSequenceJob :=
  mkJob (_title j) (_delay j) (_length j) i (_command_texts j) (_stop_event j) (_thread j).

Definition set_stop_event (b : bool) (j : CommandSequenceJob) : CommandSequenceJob :=
  mkJob (_title j) (_delay j) (_length j) (_index j) (_command_texts j) b (_thread j).

Definition set_thread (t : ThreadState) (j : CommandSequenceJob) : CommandSequenceJob :=
  mkJob (_title j) (_delay j) (_length j) (_index j) (_command_texts j) (_stop_event j) t.

(** What the timer thread does, in order. *)
Inductive Step :=
| QueuePut (e : Event)
| StopEventWait (timeout : Q).

(** The state the timer thread works on: the job object, the shared queue
    and the steps taken so far. *)
Record Run := mkRun {
  run_job : CommandSequenceJob;
  run_queue : list Event;
  run_steps : list Step
}.

(** The body of the [while] of [_loop_interval]. [woke] is what
    [self._stop_event.wait(self._delay)] returns: [true] when [stop()] set
    the event before the delay had passed. *)
Definition loop_body (woke : bool) (r : Run) : Res Run :=
  let job := run_job r in
  res_bind (getitem (_command_texts job) (_index job)) (fun text =>
  let ev := CommandSequenceJobEvent (_title job) text in
  res_bind (mod_ (_index job + 1) (_length job)) (fun index' =>
  Ok {| run_job := set_stop_event (_stop_event job || woke) (set_index index' job);
        run_queue := run_queue r ++ [ev];
        run_steps := run_steps r ++ [QueuePut ev; StopEventWait (_delay job)] |})).

(** [_loop_interval], run for as long as [waits] tells how the waits end:
    the loop is left when the stop event is found set; when [waits] is used
    up the thread is still in the loop. *)
Fixpoint _loop_interval (waits : list bool) (r : Run) : Res Run :=
  if _stop_event (run_job r) then Ok r
  else match waits with
       | [] => Ok r
       | woke :: waits' => res_bind (loop_body woke r) (_loop_interval waits')
       end.

(** [stop] and the two ways [join] goes: a thread that was never started
    cannot be joined; otherwise [join] returns once the thread has ended. *)
Definition stop (j : CommandSequenceJob) : CommandSequenceJob := set_stop_event true j.

Definition start (j : CommandSequenceJob) : Res CommandSequenceJob :=
  match _thread j with
  | Unstarted => Ok (set_thread Alive j)
  | _ => Raise (mkExn RuntimeError ["threads can only be started once"])
  end.

Definition join (j : CommandSequenceJob) : Res CommandSequenceJob :=
  match _thread j with
  | Unstarted => Raise (mkExn RuntimeError ["cannot join thread before it is started"])
  | _ => Ok (set_thread Dead j)
  end.

End Job.

(** ** observer.py *)

Module Observer.

(** [DirectoryObserver]: the watchdog thread it owns is a
    [threading.Thread] with a stop flag. *)
Record DirectoryObserver := mkObserver {
  _path : string;
  _recursive : bool;
  _stopped : bool;
  _thread : ThreadState
}.

Definition __init__ (path : string) (recursive : bool) : DirectoryObserver :=
  {| _path := path; _recursive := recursive; _stopped := false; _thread := Unstarted |}.

Definition set_thread (t : ThreadState) (o : DirectoryObserver) : DirectoryObserver :=
  mkObserver (_path o) (_recursive o) (_stopped o) t.

Definition stop (o : DirectoryObserver) : DirectoryObserver :=
  mkObserver (_path o) (_recursive o) true (_thread o).

(** [start()] starts watchdog's observer, which sets up the watch of the
    scheduled path before its thread starts: [watch_error] is what that
    raises, as when the directory does not exist, and the thread is then not
    started. *)
Definition start (watch_error : option Exn) (o : DirectoryObserver)
    : Res DirectoryObserver :=
  match watch_error with
  | Some e => Raise e
  | None =>
      match _thread o with
      | Unstarted => Ok (set_thread Alive o)
      | _ => Raise (mkExn RuntimeError ["threads can only be started once"])
      end
  end.

Definition join (o : DirectoryObserver) : Res DirectoryObserver :=
  match _thread o with
  | Unstarted => Raise (mkExn RuntimeError ["cannot join thread before it is started"])
  | _ => Ok (set_thread Dead o)
  end.

(** [CustomFileSystemEventHandler.on_created] and [on_modified] *)
Definition on_created (src_path : string) (queue : list Event) : list Event :=
  queue ++ [DirectoryObserverFileChangeEvent src_path].

Definition on_modified (src_path : string) (queue : list Event) : list Event :=
  queue ++ [DirectoryObserverFileChangeEvent src_path].

End Observer.

(** ** mc_server_wrapper_config.py *)

Module Config.

(** An entry of [jobs]: a mapping with the keys [_make_job] reads; [index]
    is optional. *)
Record RawJob := mkRawJob {
  job_type : string;
  title : string;
  delay : Q;
  index : option Z;
  groups : list (list string)
}.

(** An entry of [observers]; [recursive] is optional. *)
Record RawObserver := mkRawObserver {
  observer_type : string;
  path : string;
  recursive : option bool
}.

Record MCServerWrapperConfig := mkConfig {
  program : string;
  jobs : list RawJob;
  observers : list RawObserver
}.

Definition DEFAULT_PROGRAM : string :=
  "java -Xmx1024M -Xms1024M -jar minecraft_server.jar nogui".

End Config.

(** ** The world outside the interpreter

    What the operating system, the file system, [yaml], [traceback],
    [importlib] and [watchdog] answer. A procedure found by [import_module]
    is the list of commands its [run] yields ([str] of each) and the
    exception, if any, that ends the iteration. [watch_error] is what setting
    up the watch of a path raises when an observer is started. *)

Record Env := mkEnv {
  popen_error : list string -> option Exn;
  isfile : string -> bool;
  isdir : string -> bool;
  read_file : string -> Res string;
  listdir : string -> Res (list string);
  format_tb : Exn -> list string;
  Params : Type;
  params_empty : Params;
  params_str : Params -> string;
  yaml_load : string -> Res Params;
  import_module : string -> Res (option (Params -> list string * option Exn));
  watch_error : string -> option Exn
}.

(** ** mc_server_wrapper.py *)

Module Wrapper.

Definition FMT_RESET : string := ESC +:+ "[0m".
Definition FMT_RED : string := ESC +:+ "[31m".
Definition FMT_YELLOW : string := ESC +:+ "[33m".
Definition FMT_BLUE : string := ESC +:+ "[34m".

Definition EXIT_TOKENS : gset string := {[ "exit"; "x" ]}.

(** What a method does to the world outside the wrapper object, in the
    order it does it. *)
Inductive Action :=
| Print (text : string) (flush : bool)
| QueuePut (e : Event)
| LockAcquire
| LockRelease
| StdinWrite (text : string)
| StdinFlush
| Popen (args : list string)
| ProcessWait
| OutputThreadStart
| OutputThreadJoin
| InputThreadStart
| InputThreadJoin
| EventQueueThreadStart
| EventQueueThreadJoin
| JobStart (i : nat)
| JobStop (i : nat)
| JobJoin (i : nat)
| ObserverStart (i : nat)
| ObserverStop (i : nat)
| ObserverJoin (i : nat).

(** The child process object: the arguments it was spawned with and whether
    it has been waited for. *)
Record Process := mkProcess { args : list string; exited : bool }.

(** The wrapper object. [trace] is not a field of the Python object: it
    collects the actions performed on the world. *)
Record MCServerWrapper := mkWrapper {
  config : Config.MCServerWrapperConfig;
  _event_queue : list Event;
  _jobs : list Job.CommandSequenceJob;
  _observers : list Observer.DirectoryObserver;
  _server_input_lock : bool;
  _event_queue_thread : ThreadState;
  _input_thread : ThreadState;
  _server_process : option Process;
  _server_output_thread : option ThreadState;
  trace : list Action
}.

Definition set_event_queue (q : list Event) (w : MCServerWrapper) : MCServerWrapper :=
  mkWrapper (config w) q (_jobs w) (_observers w) (_server_input_lock w)
    (_event_queue_thread w) (_input_thread w) (_server_process w)
    (_server_output_thread w) (trace w).

Definition set_jobs (js : list Job.CommandSequenceJob) (w : MCServerWrapper) : MCServerWrapper :=
  mkWrapper (config w) (_event_queue w) js (_observers w) (_server_input_lock w)
    (_event_queue_thread w) (_input_thread w) (_server_process w)
    (_server_output_thread w) (trace w).

Definition set_observers (os : list Observer.DirectoryObserver) (w : MCServerWrapper)
    : MCServerWrapper :=
  mkWrapper (config w) (_event_queue w) (_jobs w) os (_server_input_lock w)
    (_event_queue_thread w) (_input_thread w) (_server_process w)
    (_server_output_thread w) (trace w).

Definition set_server_input_lock (b : bool) (w : MCServerWrapper) : MCServerWrapper :=
  mkWrapper (config w) (_event_queue w) (_jobs w) (_observers w) b
    (_event_queue_thread w) (_input_thread w) (_server_process w)
    (_server_output_thread w) (trace w).

Definition set_event_queue_thread (t : ThreadState) (w : MCServerWrapper) : MCServerWrapper :=
  mkWrapper (config w) (_event_queue w) (_jobs w) (_observers w) (_server_input_lock w)
    t (_input_thread w) (_server_process w) (_server_output_thread w) (trace w).

Definition set_input_thread (t : ThreadState) (w : MCServerWrapper) : MCServerWrapper :=
  mkWrapper (config w) (_event_queue w) (_jobs w) (_observers w) (_server_input_lock w)
    (_event_queue_thread w) t (_server_process w) (_server_output_thread w) (trace w).

Definition set_server_process (p : option Process) (w : MCServerWrapper) : MCServerWrapper :=
  mkWrapper (config w) (_event_queue w) (_jobs w) (_observers w) (_server_input_lock w)
    (_event_queue_thread w) (_input_thread w) p (_server_output_thread w) (trace w).

Definition set_server_output_thread (t : option ThreadState) (w : MCServerWrapper)
    : MCServerWrapper :=
  mkWrapper (config w) (_event_queue w) (_jobs w) (_observers w) (_server_input_lock w)
    (_event_queue_thread w) (_input_thread w) (_server_process w) t (trace w).

Definition set_trace (tr : list Action) (w : MCServerWrapper) : MCServerWrapper :=
  mkWrapper (config w) (_event_queue w) (_jobs w) (_observers w) (_server_input_lock w)
    (_event_queue_thread w) (_input_thread w) (_server_process w)
    (_server_output_thread w) tr.

(** *** The monad of the methods: state and exceptions *)

Definition M (A : Type) : Type := MCServerWrapper -> Res A * MCServerWrapper.

Definition ret {A} (a : A) : M A := fun w => (Ok a, w).

Definition bind {A B} (m : M A) (k : A -> M B) : M B :=
  fun w => match m w with
           | (Ok a, w') => k a w'
           | (Raise e, w') => (Raise e, w')
           end.

Definition raise {A} (e : Exn) : M A := fun w => (Raise e, w).

Definition lift {A} (r : Res A) : M A := fun w => (r, w).

Definition get {A} (f : MCServerWrapper -> A) : M A := fun w => (Ok (f w), w).

Definition modify (f : MCServerWrapper -> MCServerWrapper) : M unit :=
  fun w => (Ok tt, f w).

Definition emit (a : Action) : M unit :=
  modify (fun w => set_trace (trace w ++ [a]) w).

(** [try: m  except <handled by h>: ...]: an exception for which [h] has no
    clause goes on. *)
Definition try_except {A} (m : M A) (h : Exn -> option (M A)) : M A :=
  fun w => match m w with
           | (Raise e, w') => match h e with
                              | Some k => k w'
                              | None => (Raise e, w')
                              end
           | r => r
           end.

Declare Scope wrapper_scope.
Delimit Scope wrapper_scope with wrapper.
Bind Scope wrapper_scope with M.
Notation "x <- m ;; k" := (bind m (fun x => k))
  (at level 100, m at next level, right associativity) : wrapper_scope.
Notation "m ;; k" := (bind m (fun _ => k))
  (at level 100, right associativity) : wrapper_scope.
Local Open Scope wrapper_scope.

(** [for x in l: body(x)] *)
Fixpoint for_each {A} (l : list A) (body : A -> M unit) : M unit :=
  match l with
  | [] => ret tt
  | x :: l' => body x ;; for_each l' body
  end.

(** *** Printing *)

Definition _print (args : list string) (prefix suffix : string) (newline : bool) : M unit :=
  let message := prefix +:+ Py.join " " args +:+ suffix in
  emit (Print (if newline then message +:+ LF else message) (negb newline)).

Definition _print_color (args : list string) (color_fmt : string) (newline : bool) : M unit :=
  _print args color_fmt FMT_RESET newline.

Definition _print_error (args : list string) : M unit := _print_color args FMT_RED true.

Definition _print_warning (args : list string) : M unit := _print_color args FMT_YELLOW true.

Definition _print_server (args : list string) : M unit := _print_color args FMT_BLUE true.

(** *** The process supervisor *)

(** [Thread.isAlive] is [Thread.is_alive] under its older name. *)
Definition _is_server_running (w : MCServerWrapper) : bool :=
  match _server_output_thread w with
  | Some t => is_alive t
  | None => false
  end.

(** [self._server_process.<attr>]: the field is [None] until the first
    start. *)
Definition server_process (attr : string) : M Process :=
  fun w => match _server_process w with
           | Some p => (Ok p, w)
           | None => (Raise (mkExn AttributeError
                        ["'NoneType' object has no attribute '" +:+ attr +:+ "'"]), w)
           end.

(** [Lock.acquire] waits for the lock and returns with the lock held,
    [Lock.release] frees it. *)
Definition lock_acquire : M unit :=
  modify (set_server_input_lock true) ;; emit LockAcquire.

Definition lock_release : M unit :=
  locked <- get _server_input_lock ;;
  if locked : bool
  then modify (set_server_input_lock false) ;; emit LockRelease
  else raise (mkExn RuntimeError ["release unlocked lock"]).

Definition _write_server (text : string) : M unit :=
  running <- get _is_server_running ;;
  if running : bool then
    lock_acquire ;;
    _ <- server_process "stdin" ;;
    emit (StdinWrite text) ;;
    _ <- server_process "stdin" ;;
    emit StdinFlush ;;
    lock_release
  else
    _print_error ["Server is not running!"].

Definition pipe (text : string) : M unit := _write_server text.

Definition send (text : string) : M unit := pipe (text +:+ LF).

Definition echo (message : string) : M unit := _print [message] "" "" true.

Section WithEnv.

Context (env : Env).

(** [Popen(args, stdin=PIPE, stdout=PIPE, universal_newlines=True)] *)
Definition popen (argv : list string) : M Process :=
  match popen_error env argv with
  | Some e => raise e
  | None => emit (Popen argv) ;; ret {| args := argv; exited := false |}
  end.

Definition start_server : M unit :=
  running <- get _is_server_running ;;
  if running : bool then
    _print_error ["Server is already running!"]
  else
    _print ["Starting server..."] "" "" true ;;
    program <- get (fun w => Config.program (config w)) ;;
    p <- popen (split program) ;;
    modify (set_server_process (Some p)) ;;
    modify (set_server_output_thread (Some Unstarted)) ;;
    modify (set_server_output_thread (Some Alive)) ;;
    emit OutputThreadStart.

(** [self._server_process.wait()] returns once the child has exited. *)
Definition process_wait : M unit :=
  p <- server_process "wait" ;;
  modify (set_server_process (Some {| args := args p; exited := true |})) ;;
  emit ProcessWait.

(** [self._server_output_thread.join()] returns once the thread has
    ended. *)
Definition output_thread_join : M unit :=
  t <- get _server_output_thread ;;
  match t with
  | None => raise (mkExn AttributeError ["'NoneType' object has no attribute 'join'"])
  | Some Unstarted => raise (mkExn RuntimeError ["cannot join thread before it is started"])
  | Some _ => modify (set_server_output_thread (Some Dead)) ;; emit OutputThreadJoin
  end.

Definition stop_server : M unit :=
  running <- get _is_server_running ;;
  if running : bool then
    _print ["Stopping server..."] "" "" true ;;
    send "stop" ;;
    _print ["Waiting for server to stop..."] "" "" true ;;
    process_wait ;;
    _print ["Cleaning up server..."] "" "" true ;;
    output_thread_join ;;
    _print ["Server has stopped."] "" "" true
  else
    _print_error ["Server is not running!"].

Definition restart_server : M unit := stop_server ;; start_server.

(** [_loop_server_output], the target of the output thread: [lines] is
    what the child writes to its standard output before the stream
    ends. *)
Definition _loop_server_output (lines : list string) : M unit :=
  _ <- server_process "stdout" ;;
  for_each lines (fun line => _print_server [rstrip line]).

(** The output thread running its target: however the target ends, the
    thread is no longer alive afterwards. *)
Definition output_thread_run (lines : list string) : M unit :=
  fun w => let (r, w') := _loop_server_output lines w in
           (r, set_server_output_thread (Some Dead) w').

(** *** Loading files *)

(** [os.path.join(a, b)] on a POSIX system *)
Definition path_join (a b : string) : string :=
  if String.prefix "/" b then b
  else if (String.eqb a "" || String.eqb (substring (String.length a - 1) 1 a) "/")%bool
       then a +:+ b
       else a +:+ "/" +:+ b.

Definition load_file (path : string) : M unit :=
  _print ["Loading file:"; path] "" "" true ;;
  content <- lift (read_file env path) ;;
  pipe content.

Definition load_dir (path : string) : M unit :=
  _print ["Loading directory:"; path] "" "" true ;;
  names <- lift (listdir env path) ;;
  for_each names (fun filename => load_file (path_join path filename)).

Definition load (path : string) : M unit :=
  if isfile env path then load_file path
  else if isdir env path then load_dir path
  else _print_error ["Cannot load invalid path:"; path].

(** *** Running a procedure *)

Definition run (argline : string) : M unit :=
  let tokens := split_maxsplit1 argline in
  module_name <- lift (getitem tokens 0) ;;
  params <- (if (1 <? length tokens)%nat
             then (t <- lift (getitem tokens 1) ;; lift (yaml_load env t))
             else ret (params_empty env)) ;;
  try_except
    (module <- lift (import_module env module_name) ;;
     run_fn <- match module with
               | Some f => ret f
               | None => raise (mkExn AttributeError
                           ["module '" +:+ module_name +:+ "' has no attribute 'run'"])
               end ;;
     _print_warning ["Running procedure " +:+ module_name +:+ " with parameters: "
                     +:+ params_str env params] ;;
     let (commands, failure) := run_fn params in
     for_each commands send ;;
     match failure with
     | Some e => raise e
     | None => ret tt
     end)
    (fun e =>
       match exc_class e with
       | ModuleNotFoundError => Some (_print_error ["No such procedure: " +:+ module_name])
       | AttributeError =>
           Some (_print_error ["Procedure has no " +:+ DQUOTE +:+ "run" +:+ DQUOTE +:+ " method: "
                              +:+ module_name])
       | _ => None
       end).

(** *** The commands of the console *)

Definition _parse_echo_command (argline : string) : M unit := echo argline.

Definition _parse_send_command (argline : string) : M unit := send argline.

Definition _parse_start_command (argline : string) : M unit := start_server.

Definition _parse_restart_command (argline : string) : M unit := restart_server.

Definition _parse_load_command (argline : string) : M unit := load argline.

Definition _parse_run_command (argline : string) : M unit := run argline.

Definition _cmd_map : gmap string (string -> M unit) :=
  <[ "start" := _parse_start_command ]>
  (<[ "restart" := _parse_restart_command ]>
  (<[ "echo" := _parse_echo_command ]>
  (<[ "send" := _parse_send_command ]>
  (<[ ">" := _parse_send_command ]>
  (<[ "load" := _parse_load_command ]>
  (<[ "run" := _parse_run_command ]> ∅)))))).

(** *** The event handlers

    A handler returns [None] or [True]; the dispatcher only tests the
    result, so [None] is [false] here. Reading an attribute the event
    does not have raises. *)

Definition no_attribute {A} (event : Event) (attr : string) : M A :=
  raise (mkExn AttributeError
           ["'" +:+ type_name event +:+ "' object has no attribute '" +:+ attr +:+ "'"]).

Definition _handle_input_event (event : Event) : M bool :=
  to_input <- match event with
              | InputEvent text => ret text
              | _ => no_attribute event "to_input"
              end ;;
  let line := rstrip to_input in
  let tokens := split_maxsplit1 line in
  match tokens with
  | [] => ret false
  | token0 :: rest =>
      match _cmd_map !! token0 with
      | Some method =>
          method (match rest with token1 :: _ => token1 | [] => "" end) ;;
          ret false
      | None => send line ;; ret false
      end
  end.

Definition _handle_command_sequence_job_event (event : Event) : M bool :=
  match event with
  | CommandSequenceJobEvent title text =>
      _print ["Running command sequence:"; title] "" "" true ;;
      pipe text ;;
      ret false
  | _ => no_attribute event "title"
  end.

Definition _handle_directory_observer_file_change_event (event : Event) : M bool :=
  match event with
  | DirectoryObserverFileChangeEvent filepath => load_file filepath ;; ret false
  | _ => no_attribute event "filepath"
  end.

(** [self._input_thread.join()] returns once the reader has ended. *)
Definition input_thread_join : M unit :=
  t <- get _input_thread ;;
  match t with
  | Unstarted => raise (mkExn RuntimeError ["cannot join thread before it is started"])
  | _ => modify (set_input_thread Dead) ;; emit InputThreadJoin
  end.

(** [job.stop()] and [job.join()] on the [i]-th job, and the same for the
    observers. *)
Definition job_stop (i : nat) : M unit :=
  modify (fun w => set_jobs (alter Job.stop i (_jobs w)) w) ;; emit (JobStop i).

Definition job_join (i : nat) : M unit :=
  jobs <- get _jobs ;;
  match jobs !! i with
  | Some job =>
      job' <- lift (Job.join job) ;;
      modify (fun w => set_jobs (<[ i := job' ]> (_jobs w)) w) ;; emit (JobJoin i)
  | None => ret tt
  end.

Definition observer_stop (i : nat) : M unit :=
  modify (fun w => set_observers (alter Observer.stop i (_observers w)) w) ;;
  emit (ObserverStop i).

Definition observer_join (i : nat) : M unit :=
  observers <- get _observers ;;
  match observers !! i with
  | Some observer =>
      observer' <- lift (Observer.join observer) ;;
      modify (fun w => set_observers (<[ i := observer' ]> (_observers w)) w) ;;
      emit (ObserverJoin i)
  | None => ret tt
  end.

Definition _handle_exit_event (event : Event) : M bool :=
  _print ["Stopping wrapper..."] "" "" true ;;
  _print ["Cleaning up input..."] "" "" true ;;
  input_thread_join ;;
  running <- get _is_server_running ;;
  (if running : bool then stop_server else ret tt) ;;
  jobs <- get _jobs ;;
  (match jobs with
   | [] => ret tt
   | _ => _print ["Cleaning up " +:+ str_of_nat (length jobs) +:+ " job(s)..."] "" "" true
   end) ;;
  for_each (seq 0 (length jobs)) (fun i => job_stop i ;; job_join i) ;;
  observers <- get _observers ;;
  (match observers with
   | [] => ret tt
   | _ => _print ["Cleaning up " +:+ str_of_nat (length observers) +:+ " observer(s)..."]
            "" "" true
   end) ;;
  for_each (seq 0 (length observers)) (fun i => observer_stop i ;; observer_join i) ;;
  ret true.

Definition _event_handler_map : gmap string (Event -> M bool) :=
  <[ "InputEvent" := _handle_input_event ]>
  (<[ "CommandSequenceJobEvent" := _handle_command_sequence_job_event ]>
  (<[ "DirectoryObserverFileChangeEvent" := _handle_directory_observer_file_change_event ]>
  (<[ "ExitEvent" := _handle_exit_event ]> ∅))).

(** *** The dispatcher *)

(** [str(event)] in the warning. Only an object of a foreign class gets
    there; the four event classes print as the default [object] text. *)
Definition event_str (event : Event) : string :=
  match event with
  | OtherEvent _ repr => repr
  | _ => "<" +:+ type_name event +:+ " object>"
  end.

(** The [except Exception as e] clause of [_loop_event_queue]. *)
Definition report_error (e : Exn) : M unit :=
  _print_error ["Event resulted in an error:"] ;;
  for_each (format_tb env e) (fun item => _print_color [item] FMT_RED false) ;;
  arg0 <- lift (tuple_getitem (exc_args e) 0) ;;
  _print_color [arg0] FMT_RED true.

(** How a run of the dispatcher ends: by [break], in [queue.get()] on an
    empty queue, or with the iterations of the model used up. *)
Inductive LoopEnd := LoopStopped | LoopWaiting | LoopOutOfFuel.

(** [self._event_queue.get()]: [None] when the queue is empty and the
    call would block. *)
Definition queue_get : M (option Event) :=
  q <- get _event_queue ;;
  match q with
  | [] => ret None
  | event :: q' => modify (set_event_queue q') ;; ret (Some event)
  end.

Fixpoint _loop_event_queue (fuel : nat) : M LoopEnd :=
  match fuel with
  | O => ret LoopOutOfFuel
  | S fuel' =>
      next <- queue_get ;;
      match next with
      | None => ret LoopWaiting
      | Some event =>
          match _event_handler_map !! type_name event with
          | None =>
              _print_warning ["Ignoring unknown event: " +:+ event_str event] ;;
              _loop_event_queue fuel'
          | Some handler_method =>
              stop <- try_except
                        (handler_method event)
                        (fun e => if is_Exception (exc_class e)
                                  then Some (report_error e ;; ret false)
                                  else None) ;;
              if stop : bool
              then _print ["Wrapper has stopped."] "" "" true ;; ret LoopStopped
              else _loop_event_queue fuel'
          end
      end
  end.

(** *** The console reader and the public methods *)

Definition exit : M unit :=
  modify (fun w => set_event_queue (_event_queue w ++ [ExitEvent]) w) ;;
  emit (QueuePut ExitEvent).

(** [_loop_input], the target of the input thread, on the lines that
    [input()] returns; [input()] raises at the end of the input. *)
Fixpoint _loop_input (lines : list string) : M unit :=
  match lines with
  | [] => raise (mkExn EOFError ["EOF when reading a line"])
  | l :: lines' =>
      let inp := strip l in
      if decide (inp ∈ EXIT_TOKENS)
      then exit
      else
        modify (fun w => set_event_queue (_event_queue w ++ [InputEvent inp]) w) ;;
        emit (QueuePut (InputEvent inp)) ;;
        _loop_input lines'
  end.

(** The input thread running its target. *)
Definition input_thread_run (lines : list string) : M unit :=
  fun w => let (r, w') := _loop_input lines w in (r, set_input_thread Dead w').

Definition thread_start (t : ThreadState) : Res ThreadState :=
  match t with
  | Unstarted => Ok Alive
  | _ => Raise (mkExn RuntimeError ["threads can only be started once"])
  end.

Definition observer_start (i : nat) : M unit :=
  observers <- get _observers ;;
  match observers !! i with
  | Some observer =>
      observer' <- lift (Observer.start (watch_error env (Observer._path observer))
                           observer) ;;
      modify (fun w => set_observers (<[ i := observer' ]> (_observers w)) w) ;;
      emit (ObserverStart i)
  | None => ret tt
  end.

Definition job_start (i : nat) : M unit :=
  jobs <- get _jobs ;;
  match jobs !! i with
  | Some job =>
      job' <- lift (Job.start job) ;;
      modify (fun w => set_jobs (<[ i := job' ]> (_jobs w)) w) ;; emit (JobStart i)
  | None => ret tt
  end.

Definition start : M unit :=
  start_server ;;
  t <- get _input_thread ;;
  t' <- lift (thread_start t) ;;
  modify (set_input_thread t') ;; emit InputThreadStart ;;
  t <- get _event_queue_thread ;;
  t' <- lift (thread_start t) ;;
  modify (set_event_queue_thread t') ;; emit EventQueueThreadStart ;;
  observers <- get _observers ;;
  for_each (seq 0 (length observers)) observer_start ;;
  jobs <- get _jobs ;;
  for_each (seq 0 (length jobs)) job_start.

Definition join : M unit :=
  t <- get _event_queue_thread ;;
  match t with
  | Unstarted => raise (mkExn RuntimeError ["cannot join thread before it is started"])
  | _ => modify (set_event_queue_thread Dead) ;; emit EventQueueThreadJoin
  end.

End WithEnv.

(** *** Construction *)

Definition _make_job (raw_job : Config.RawJob) : Res Job.CommandSequenceJob :=
  let job_type := Config.job_type raw_job in
  if String.eqb job_type "command_sequence" then
    Job.__init__ (Config.title raw_job) (Config.delay raw_job)
      (default 0%Z (Config.index raw_job)) (Config.groups raw_job)
  else Raise (mkExn ValueError ["Invalid job type: " +:+ job_type]).

Definition _make_observer (raw_observer : Config.RawObserver)
    : Res Observer.DirectoryObserver :=
  let observer_type := Config.observer_type raw_observer in
  if String.eqb observer_type "directory" then
    Ok (Observer.__init__ (Config.path raw_observer)
          (default false (Config.recursive raw_observer)))
  else Raise (mkExn ValueError ["Invalid observer type: " +:+ observer_type]).

(** [for raw in l: out.append(make(raw))] *)
Fixpoint make_all {A B} (make : A -> Res B) (l : list A) : Res (list B) :=
  match l with
  | [] => Ok []
  | raw :: l' =>
      res_bind (make raw) (fun x => res_bind (make_all make l') (fun xs => Ok (x :: xs)))
  end.

Definition __init__ (config : Config.MCServerWrapperConfig) : Res MCServerWrapper :=
  res_bind (make_all _make_job (Config.jobs config)) (fun jobs =>
  res_bind (make_all _make_observer (Config.observers config)) (fun observers =>
  Ok {| config := config;
        _event_queue := [];
        _jobs := jobs;
        _observers := observers;
        _server_input_lock := false;
        _event_queue_thread := Unstarted;
        _input_thread := Unstarted;
        _server_process := None;
        _server_output_thread := None;
        trace := [] |})).

End Wrapper.

(** * The vocabulary of the statements *)

(** The text of a group, as [CommandSequenceJob.__init__] builds it. *)
Definition group_text (commands : list string) : string := Py.join LF commands +:+ LF.

(** The event a job with this title and these groups fires for the group at
    index [i]. *)
Definition fired_at (title : string) (groups : list (list string)) (i : Z) : Event :=
  CommandSequenceJobEvent title (group_text (nth (Z.to_nat i) groups [])).

(** What holds of a job object from its construction on. *)
Definition job_inv (title : string) (delay : Q) (groups : list (list string))
    (j : Job.CommandSequenceJob) : Prop :=
  Job._title j = title /\ Job._delay j = delay /\
  Job._length j = Z.of_nat (length groups) /\
  Job._command_texts j = map group_text groups /\
  (0 <= Job._index j < Z.of_nat (length groups))%Z.

(** The events of [k] firings in a row, the first one for index [i]. *)
Definition fired_from (title : string) (groups : list (list string)) (i : Z) (k : nat)
    : list Event :=
  map (fun n => fired_at title groups ((i + Z.of_nat n) mod Z.of_nat (length groups)))
    (seq 0 k).

(** The steps of the timer thread that put these events. *)
Definition steps_of (delay : Q) (evs : list Event) : list Job.Step :=
  flat_map (fun e => [Job.QueuePut e; Job.StopEventWait delay]) evs.

(** A line printed by [_print], and a line printed in red by [_print_error]. *)
Definition says (args : list string) : Wrapper.Action :=
  Wrapper.Print (("" +:+ Py.join " " args +:+ "") +:+ LF) false.

Definition says_error (args : list string) : Wrapper.Action :=
  Wrapper.Print ((Wrapper.FMT_RED +:+ Py.join " " args +:+ Wrapper.FMT_RESET) +:+ LF) false.

(** A text that is empty or made of spaces only, and one without any
    space. *)
Fixpoint all_space (s : string) : bool :=
  match s with
  | EmptyString => true
  | String c s' => isspace c && all_space s'
  end.

Fixpoint no_space (s : string) : bool :=
  match s with
  | EmptyString => true
  | String c s' => negb (isspace c) && no_space s'
  end.

(** What the dispatcher prints for a caught exception whose first argument
    is [arg0]: the heading, the formatted frames of the traceback, the
    argument. *)
Definition report_actions (env : Env) (e : Exn) (arg0 : string) : list Wrapper.Action :=
  [says_error ["Event resulted in an error:"]]
  ++ map (fun item =>
            Wrapper.Print (Wrapper.FMT_RED +:+ Py.join " " [item] +:+ Wrapper.FMT_RESET) true)
       (format_tb env e)
  ++ [says_error [arg0]].

(** What [stop_server] does to a running server. *)
Definition stop_server_actions : list Wrapper.Action :=
  [says ["Stopping server..."];
   Wrapper.LockAcquire; Wrapper.StdinWrite ("stop" +:+ LF); Wrapper.StdinFlush;
   Wrapper.LockRelease;
   says ["Waiting for server to stop..."];
   Wrapper.ProcessWait;
   says ["Cleaning up server..."];
   Wrapper.OutputThreadJoin;
   says ["Server has stopped."]].

(** The steps of the exit handler on a wrapper with [jobs] jobs and
    [observers] observers whose server is running or not. *)
Definition exit_actions (running : bool) (jobs observers : nat) : list Wrapper.Action :=
  [says ["Stopping wrapper..."]; says ["Cleaning up input..."]; Wrapper.InputThreadJoin]
  ++ (if running then stop_server_actions else [])
  ++ (match jobs with
      | O => []
      | _ => [says ["Cleaning up " +:+ str_of_nat jobs +:+ " job(s)..."]]
      end)
  ++ flat_map (fun i => [Wrapper.JobStop i; Wrapper.JobJoin i]) (seq 0 jobs)
  ++ (match observers with
      | O => []
      | _ => [says ["Cleaning up " +:+ str_of_nat observers +:+ " observer(s)..."]]
      end)
  ++ flat_map (fun i => [Wrapper.ObserverStop i; Wrapper.ObserverJoin i]) (seq 0 observers).

(** A job and an observer after [stop()] and [join()]. *)
Definition job_done (j : Job.CommandSequenceJob) : Job.CommandSequenceJob :=
  Job.set_thread Dead (Job.stop j).

Definition observer_done (o : Observer.DirectoryObserver) : Observer.DirectoryObserver :=
  Observer.set_thread Dead (Observer.stop o).

(** The wrapper object the exit handler leaves behind. *)
Definition after_exit (w : Wrapper.MCServerWrapper) : Wrapper.MCServerWrapper :=
  let running := Wrapper._is_server_running w in
  Wrapper.mkWrapper
    (Wrapper.config w)
    (Wrapper._event_queue w)
    (map job_done (Wrapper._jobs w))
    (map observer_done (Wrapper._observers w))
    (if running then false else Wrapper._server_input_lock w)
    (Wrapper._event_queue_thread w)
    Dead
    (if running
     then option_map (fun p => Wrapper.mkProcess (Wrapper.args p) true)
            (Wrapper._server_process w)
     else Wrapper._server_process w)
    (if running then Some Dead else Wrapper._server_output_thread w)
    (Wrapper.trace w
     ++ exit_actions running (length (Wrapper._jobs w)) (length (Wrapper._observers w))).

(** The lifecycle of the supervisor as the specification words it: an
    explicit flag that a start which succeeds sets, a stop which completes
    clears, and nothing else touches. The flag is carried along with the
    wrapper object while the supervisor's methods and the output thread
    run. *)
Module Lifecycle.

Inductive Op :=
| Start
| Stop
| OutputEnds (lines : list string).

Record State := mkState { wrapper : Wrapper.MCServerWrapper; flag : bool }.

Definition step (env : Env) (s : State) (op : Op) : State :=
  match op with
  | Start =>
      let (r, w') := Wrapper.start_server env (wrapper s) in
      mkState w' (match r with Ok _ => true | Raise _ => flag s end)
  | Stop =>
      let (r, w') := Wrapper.stop_server (wrapper s) in
      mkState w' (match r with Ok _ => false | Raise _ => flag s end)
  | OutputEnds lines =>
      mkState (snd (Wrapper.output_thread_run lines (wrapper s))) (flag s)
  end.

Definition run (env : Env) (ops : list Op) (s : State) : State :=
  fold_left (step env) ops s.

End Lifecycle.

(** ** Sample worlds *)

(** An environment in which every spawn succeeds, the only file is
    [cmds.txt], and three procedures can be imported: [greet] yields one
    command, [quit] raises [SystemExit] and [boom] raises a [ValueError]
    without arguments. *)
Definition sample_env : Env :=
  {| popen_error := fun _ => None;
     isfile := fun p => String.eqb p "cmds.txt";
     isdir := fun _ => false;
     read_file := fun p =>
       if String.eqb p "cmds.txt" then Ok ("say one" +:+ LF +:+ "say two" +:+ LF)
       else Raise (mkExn FileNotFoundError ["2"; "No such file or directory"]);
     listdir := fun _ => Raise (mkExn FileNotFoundError ["2"; "No such file or directory"]);
     format_tb := fun e => ["  File mc_server_wrapper.py, line 101, in _loop_event_queue" +:+ LF];
     Params := unit;
     params_empty := tt;
     params_str := fun _ => "{}";
     yaml_load := fun _ => Ok tt;
     import_module := fun name =>
       if String.eqb name "greet" then Ok (Some (fun _ => (["say hello"], None)))
       else if String.eqb name "quit" then Ok (Some (fun _ => ([], Some (mkExn SystemExit ["0"]))))
       else if String.eqb name "boom" then Ok (Some (fun _ => ([], Some (mkExn ValueError []))))
       else Raise (mkExn ModuleNotFoundError ["No module named '" +:+ name +:+ "'"]);
     watch_error := fun _ => None |}.

(** A configuration with one job and one observer, the wrapper fresh from
    its constructor and the same wrapper after [start()], with the trace
    emptied. *)
Definition sample_config : Config.MCServerWrapperConfig :=
  {| Config.program := Config.DEFAULT_PROGRAM;
     Config.jobs := [Config.mkRawJob "command_sequence" "ping" 1%Q None
                       [["say hi"]; ["say bye"]]];
     Config.observers := [Config.mkRawObserver "directory" "functions" None] |}.

Definition sample_job (t : ThreadState) : Job.CommandSequenceJob :=
  Job.mkJob "ping" 1%Q 2 0 ["say hi" +:+ LF; "say bye" +:+ LF] false t.

Definition sample_observer (t : ThreadState) : Observer.DirectoryObserver :=
  Observer.mkObserver "functions" false false t.

Definition fresh_wrapper : Wrapper.MCServerWrapper :=
  Wrapper.mkWrapper sample_config [] [sample_job Unstarted] [sample_observer Unstarted]
    false Unstarted Unstarted None None [].

Definition started_wrapper : Wrapper.MCServerWrapper :=
  Wrapper.mkWrapper sample_config [] [sample_job Alive] [sample_observer Alive]
    false Alive Alive
    (Some (Wrapper.mkProcess
             ["java"; "-Xmx1024M"; "-Xms1024M"; "-jar"; "minecraft_server.jar"; "nogui"]
             false))
    (Some Alive) [].

(** ** Vocabulary of the further properties *)

(** The entries of a configuration that the constructor accepts, and the
    objects it builds from them. *)
Definition valid_raw_job (r : Config.RawJob) : bool :=
  String.eqb (Config.job_type r) "command_sequence"
  && negb (Nat.eqb (length (Config.groups r)) 0).

Definition valid_raw_observer (r : Config.RawObserver) : bool :=
  String.eqb (Config.observer_type r) "directory".

Definition job_of_raw (r : Config.RawJob) : Job.CommandSequenceJob :=
  Job.mkJob (Config.title r) (Config.delay r)
    (Z.of_nat (length (Config.groups r)))
    (default 0%Z (Config.index r) mod Z.of_nat (length (Config.groups r)))
    (map group_text (Config.groups r)) false Unstarted.

Definition observer_of_raw (r : Config.RawObserver) : Observer.DirectoryObserver :=
  Observer.mkObserver (Config.path r) (default false (Config.recursive r)) false Unstarted.

(** What the constructor raises on an entry it refuses: a job of an unknown
    type is named in a [ValueError]; a [command_sequence] without groups
    fails in the job's own constructor, at the modulo. *)
Definition job_error (r : Config.RawJob) : Exn :=
  if String.eqb (Config.job_type r) "command_sequence"
  then mkExn ZeroDivisionError ["integer division or modulo by zero"]
  else mkExn ValueError ["Invalid job type: " +:+ Config.job_type r].

(** What one write to the child's input does. *)
Definition write_actions (text : string) : list Wrapper.Action :=
  [Wrapper.LockAcquire; Wrapper.StdinWrite text; Wrapper.StdinFlush; Wrapper.LockRelease].

(** A line printed in yellow by [_print_warning]. *)
Definition says_warning (args : list string) : Wrapper.Action :=
  Wrapper.Print ((Wrapper.FMT_YELLOW +:+ Py.join " " args +:+ Wrapper.FMT_RESET) +:+ LF) false.

(** A property of the wrapper object that a method keeps, however the
    method ends. *)
Definition maintains {A} (I : Wrapper.MCServerWrapper -> Prop) (m : Wrapper.M A) : Prop :=
  forall w, I w -> I (snd (m w)).

(** The supervisor's fields fit together: an output thread object only
    exists along with a process object. *)
Definition supervisor_inv (w : Wrapper.MCServerWrapper) : Prop :=
  Wrapper._server_output_thread w <> None -> Wrapper._server_process w <> None.

(** One event through the body of the dispatcher's loop, and a whole queue
    of events through it, the queue holding what is still to come. *)
Definition dispatch_one (env : Env) (event : Event) : Wrapper.M bool :=
  match Wrapper._event_handler_map env !! type_name event with
  | None =>
      Wrapper.bind
        (Wrapper._print_warning ["Ignoring unknown event: " +:+ Wrapper.event_str event])
        (fun _ => Wrapper.ret false)
  | Some handler_method =>
      Wrapper.try_except (handler_method event)
        (fun e => if is_Exception (exc_class e)
                  then Some (Wrapper.bind (Wrapper.report_error env e)
                               (fun _ => Wrapper.ret false))
                  else None)
  end.

Fixpoint dispatch_all (env : Env) (events : list Event) : Wrapper.M Wrapper.LoopEnd :=
  match events with
  | [] => Wrapper.ret Wrapper.LoopWaiting
  | event :: rest =>
      Wrapper.bind (Wrapper.modify (Wrapper.set_event_queue rest)) (fun _ =>
      Wrapper.bind (dispatch_one env event) (fun stop =>
      if stop : bool
      then Wrapper.bind (Wrapper._print ["Wrapper has stopped."] "" "" true)
             (fun _ => Wrapper.ret Wrapper.LoopStopped)
      else dispatch_all env rest))
  end.

(** The sample environment on a machine where the server cannot be
    spawned. *)
Definition no_java_env : Env :=
  mkEnv (fun _ => Some (mkExn FileNotFoundError ["2"; "No such file or directory: 'java'"]))
    (isfile sample_env) (isdir sample_env) (read_file sample_env) (listdir sample_env)
    (format_tb sample_env) (Params sample_env) (params_empty sample_env)
    (params_str sample_env) (yaml_load sample_env) (import_module sample_env)
    (watch_error sample_env).



(** The parameters [run] passes to the procedure: the YAML after the
    procedure's name, or the empty mapping. *)
Definition parsed_params (env : Env) (tokens : list string) : Res (Params env) :=
  match tokens with
  | _ :: t :: _ => yaml_load env t
  | _ => Ok (params_empty env)
  end.

(** What loading the files [names] of the directory [path] does when their
    contents are [contents]. *)
Definition load_actions (path : string) (names contents : list string)
    : list Wrapper.Action :=
  flat_map (fun nc => says ["Loading file:"; Wrapper.path_join path (fst nc)]
                      :: write_actions (snd nc))
    (zip names contents).

(** A computation that never asks the dispatcher to stop. *)
Definition never_stops (m : Wrapper.M bool) : Prop :=
  forall w w', m w <> (Ok true, w').

(** A world with two directories of functions: [pack] holds two readable
    files, [broken] lists a subdirectory [sub] between them, which [open]
    refuses; and a module [empty] that has no [run] attribute. *)
Definition datapack_env : Env :=
  mkEnv (popen_error sample_env)
    (fun _ => false)
    (fun p => String.eqb p "pack" || String.eqb p "broken")%bool
    (fun p =>
       if String.eqb p "pack/a.txt" || String.eqb p "broken/a.txt" then Ok ("say a" +:+ LF)
       else if String.eqb p "pack/b.txt" || String.eqb p "broken/b.txt"
            then Ok ("say b" +:+ LF)
       else if String.eqb p "broken/sub"
            then Raise (mkExn IsADirectoryError ["21"; "Is a directory: 'broken/sub'"])
       else Raise (mkExn FileNotFoundError ["2"; "No such file or directory"]))%bool
    (fun p =>
       if String.eqb p "pack" then Ok ["a.txt"; "b.txt"]
       else if String.eqb p "broken" then Ok ["a.txt"; "sub"; "b.txt"]
       else Raise (mkExn FileNotFoundError ["2"; "No such file or directory"]))
    (format_tb sample_env) (Params sample_env) (params_empty sample_env)
    (params_str sample_env) (yaml_load sample_env)
    (fun name => if String.eqb name "empty" then Ok None
                 else import_module sample_env name)
    (watch_error sample_env).

(** * Properties *)

(** ** The Python runtime *)

Example rstrip_ex : rstrip (" say  hi " +:+ TAB +:+ LF) = " say  hi".
Proof. reflexivity. Qed.

Example split_maxsplit1_ex : split_maxsplit1 "  echo   hello  world" = ["echo"; "hello  world"].
Proof. reflexivity. Qed.

Example split_ex : split " java  -jar server.jar  nogui " = ["java"; "-jar"; "server.jar"; "nogui"].
Proof. reflexivity. Qed.

Example mod_negative : mod_ (-1) 3 = Ok 2%Z.
Proof. reflexivity. Qed.


Lemma mod__ok (a b : Z) : (0 < b)%Z -> mod_ a b = Ok (a mod b)%Z.
Proof.
  intros Hb. unfold mod_.
  destruct (Z.eqb_spec b 0); [lia | reflexivity].
Qed.

Lemma getitem_ok {A} (l : list A) (i : Z) (x : A) :
  (0 <= i)%Z -> l !! Z.to_nat i = Some x -> getitem l i = Ok x.
Proof.
  intros Hi Hx. unfold getitem.
  apply lookup_lt_Some in Hx as Hlt.
  destruct (Z.ltb_spec i 0); [lia |].
  destruct (Z.leb_spec 0 i); [| lia].
  destruct (Z.ltb_spec i (Z.of_nat (length l))); [| lia].
  simpl. now rewrite Hx.
Qed.

Lemma append_cons (c : ascii) (s t : string) : String c s +:+ t = String c (s +:+ t).
Proof. reflexivity. Qed.

Lemma append_empty_r (s : string) : s +:+ "" = s.
Proof. induction s as [| c s IH]; [reflexivity |]. now rewrite append_cons, IH. Qed.

Lemma rstrip_all_space (s : string) : all_space s = true -> rstrip s = "".
Proof.
  induction s as [| c s IH]; simpl; [reflexivity |].
  intros [Hc Hs]%andb_prop. rewrite (IH Hs), Hc. reflexivity.
Qed.

Lemma lstrip_shape (s : string) :
  exists pre, s = pre +:+ lstrip s /\ all_space pre = true.
Proof.
  induction s as [| c s (pre & Hs & Hpre)]; simpl.
  - exists "". auto.
  - destruct (isspace c) eqn:Hc.
    + exists (String c pre). simpl. rewrite append_cons, Hc, Hpre, <- Hs. auto.
    + exists "". auto.
Qed.

Lemma lstrip_head (s : string) (c : ascii) (r : string) :
  lstrip s = String c r -> isspace c = false.
Proof.
  induction s as [| d s IH]; simpl; [discriminate |].
  destruct (isspace d) eqn:Hd; [exact IH |]. now intros [= -> ->].
Qed.

Lemma lstrip_idem (s : string) : lstrip (lstrip s) = lstrip s.
Proof.
  destruct (lstrip s) as [| c r] eqn:Hs; [reflexivity |].
  simpl. now rewrite (lstrip_head _ _ _ Hs).
Qed.

Lemma lstrip_empty (s : string) : lstrip s = "" -> all_space s = true.
Proof.
  induction s as [| c s IH]; simpl; [reflexivity |].
  destruct (isspace c); [exact IH | discriminate].
Qed.

Lemma span_token_shape (s tok rest : string) :
  span_token s = (tok, rest) -> s = tok +:+ rest /\ no_space tok = true.
Proof.
  revert tok rest. induction s as [| c s IH]; simpl; intros tok rest.
  - now intros [= <- <-].
  - destruct (isspace c) eqn:Hc.
    + now intros [= <- <-].
    + destruct (span_token s) as [t r]. intros [= <- <-].
      destruct (IH t r eq_refl) as [-> Ht]. simpl. now rewrite append_cons, Hc, Ht.
Qed.

Lemma lstrip_length (s : string) : (String.length (lstrip s) <= String.length s)%nat.
Proof.
  induction s as [| c s IH]; simpl; [lia |].
  destruct (isspace c); simpl; lia.
Qed.

(** What follows the first token is empty or begins with a space. *)
Lemma span_token_rest (s tok rest : string) :
  span_token s = (tok, rest) -> lstrip rest = rest -> rest = "".
Proof.
  revert tok rest. induction s as [| c s IH]; simpl; intros tok rest.
  - now intros [= <- <-].
  - destruct (isspace c) eqn:Hc.
    + intros [= <- <-]. simpl. rewrite Hc. intros Hl.
      pose proof (lstrip_length s) as Hlen. rewrite Hl in Hlen. simpl in Hlen. lia.
    + destruct (span_token s) as [t r]. intros [= <- <-]. now apply (IH t).
Qed.

Lemma span_token_nonempty (c : ascii) (s tok rest : string) :
  isspace c = false -> span_token (String c s) = (tok, rest) -> tok <> "".
Proof.
  simpl. intros ->. destruct (span_token s). now intros [= <- <-].
Qed.

(** What [split(maxsplit=1)] returns, read back on the string: spaces, the
    first token, spaces, the remainder. *)
Lemma split_maxsplit1_shape (s token0 : string) (rest : list string) :
  split_maxsplit1 s = token0 :: rest ->
  let argline := match rest with token1 :: _ => token1 | [] => "" end in
  (rest = [] \/ rest = [argline] /\ argline <> "") /\
  exists pre ws,
    s = pre +:+ token0 +:+ ws +:+ argline /\
    all_space pre = true /\ all_space ws = true /\
    token0 <> "" /\ no_space token0 = true /\
    lstrip argline = argline /\ (argline <> "" -> ws <> "").
Proof.
  unfold split_maxsplit1.
  destruct (lstrip_shape s) as (pre & Hs & Hpre).
  destruct (lstrip s) as [| c s1] eqn:Hl; [discriminate |].
  destruct (span_token (String c s1)) as [tok r] eqn:Hsp.
  pose proof (span_token_nonempty _ _ _ _ (lstrip_head _ _ _ Hl) Hsp) as Hne.
  destruct (span_token_shape _ _ _ Hsp) as [Hcat Htok].
  destruct (lstrip_shape r) as (ws & Hr & Hws).
  destruct (lstrip r) as [| d r1] eqn:Hlr.
  - intros [= <- <-]. simpl. split; [now left |].
    exists pre, r. repeat split; try assumption.
    + now rewrite append_empty_r, <- Hcat.
    + now apply lstrip_empty.
    + congruence.
  - intros [= <- <-]. simpl. split; [right; split; [reflexivity | discriminate] |].
    exists pre, ws. repeat split; try assumption.
    + now rewrite <- Hr, <- Hcat.
    + simpl. now rewrite (lstrip_head _ _ _ Hlr).
    + intros _ ->. simpl in Hr. subst r.
      assert (Hd : lstrip (String d r1) = String d r1) by exact Hlr.
      pose proof (span_token_rest _ _ _ Hsp Hd). discriminate.
Qed.

(** ** job.py *)

Section JobFacts.

Import Job.

Variables (title : string) (delay : Q) (groups : list (list string)).

Let N : Z := Z.of_nat (length groups).

Lemma init_ok (index : Z) :
  (1 <= length groups)%nat ->
  __init__ title delay index groups =
    Ok (mkJob title delay N (index mod N) (map group_text groups) false Unstarted).
Proof.
  intros Hn. unfold __init__. fold N.
  rewrite mod__ok by (unfold N; lia). reflexivity.
Qed.

Lemma init_inv (index : Z) (j : CommandSequenceJob) :
  __init__ title delay index groups = Ok j -> job_inv title delay groups j /\ _stop_event j = false.
Proof.
  unfold __init__. fold N. unfold mod_.
  destruct (Z.eqb_spec N 0) as [|Hne]; [discriminate |].
  simpl. intros [= <-]. unfold job_inv; simpl.
  repeat split; try reflexivity; apply Z.mod_pos_bound; unfold N in *; lia.
Qed.

Lemma loop_body_ok (woke : bool) (j : CommandSequenceJob) (q : list Event) (st : list Step) :
  job_inv title delay groups j ->
  loop_body woke (mkRun j q st) =
    Ok (mkRun (set_stop_event (_stop_event j || woke)
                 (set_index ((_index j + 1) mod N) j))
              (q ++ [fired_at title groups (_index j)])
              (st ++ [QueuePut (fired_at title groups (_index j)); StopEventWait delay])).
Proof.
  intros (Ht & Hd & Hl & Hc & Hi). unfold loop_body; simpl.
  assert (Hx : _command_texts j !! Z.to_nat (_index j)
               = Some (group_text (nth (Z.to_nat (_index j)) groups []))).
  { rewrite Hc, list_lookup_fmap, nth_lookup.
    destruct (lookup_lt_is_Some_2 groups (Z.to_nat (_index j))) as [g Hg];
      [unfold N in Hi; lia |].
    now rewrite Hg. }
  rewrite (getitem_ok _ _ _ (proj1 Hi) Hx). simpl.
  rewrite Hl, mod__ok by lia. simpl.
  unfold fired_at. now rewrite Ht, Hd.
Qed.

Lemma loop_body_inv (woke : bool) (r r' : Run) :
  job_inv title delay groups (run_job r) -> loop_body woke r = Ok r' -> job_inv title delay groups (run_job r').
Proof.
  intros Hinv. destruct r as [j q st]. simpl in Hinv.
  rewrite loop_body_ok by assumption. intros [= <-]. simpl.
  destruct Hinv as (Ht & Hd & Hl & Hc & Hi).
  unfold job_inv; simpl. repeat split; try assumption; apply Z.mod_pos_bound; lia.
Qed.

(** The loop never raises and keeps the invariant, however the waits end. *)
Lemma loop_interval_inv (waits : list bool) (r : Run) :
  job_inv title delay groups (run_job r) ->
  exists r', _loop_interval waits r = Ok r' /\ job_inv title delay groups (run_job r').
Proof.
  revert r. induction waits as [| woke waits IH]; intros r Hinv; simpl.
  - destruct (_stop_event (run_job r)); eauto.
  - destruct (_stop_event (run_job r)); [eauto |].
    destruct r as [j q st]. simpl in Hinv.
    rewrite loop_body_ok by assumption. simpl.
    apply IH.
    apply (loop_body_inv woke (mkRun j q st) _ Hinv (loop_body_ok woke j q st Hinv)).
Qed.

Lemma fired_from_S (i : Z) (k : nat) :
  (0 <= i < N)%Z ->
  fired_from title groups i (S k) = fired_at title groups i :: fired_from title groups ((i + 1) mod N) k.
Proof.
  intros Hi. unfold fired_from. simpl.
  rewrite Z.add_0_r, Z.mod_small by assumption. f_equal.
  rewrite <- seq_shift, map_map. apply map_ext. intros n.
  f_equal. rewrite Zplus_mod_idemp_l. f_equal. lia.
Qed.

Lemma loop_interval_timeouts (k : nat) (j : CommandSequenceJob) (q : list Event)
    (st : list Step) :
  job_inv title delay groups j -> _stop_event j = false ->
  _loop_interval (repeat false k) (mkRun j q st) =
    Ok (mkRun (set_index ((_index j + Z.of_nat k) mod N) j)
              (q ++ fired_from title groups (_index j) k)
              (st ++ steps_of delay (fired_from title groups (_index j) k))).
Proof.
  revert j q st. induction k as [| k IH]; intros j q st Hinv Hs.
  - simpl. rewrite Hs. destruct Hinv as (_ & _ & _ & _ & Hi).
    rewrite Z.add_0_r, Z.mod_small by assumption.
    unfold fired_from, steps_of. simpl. rewrite !app_nil_r. now destruct j.
  - change (repeat false (S k)) with (false :: repeat false k).
    cbn [_loop_interval run_job]. rewrite Hs.
    rewrite loop_body_ok by assumption. cbn [res_bind].
    rewrite Hs. cbn [orb].
    pose proof (loop_body_inv false (mkRun j q st) _ Hinv (loop_body_ok false j q st Hinv))
      as Hinv'.
    cbn [run_job] in Hinv'. rewrite Hs in Hinv'. cbn [orb] in Hinv'.
    rewrite IH; [| exact Hinv' | now destruct j].
    destruct Hinv as (_ & _ & _ & _ & Hi).
    rewrite (fired_from_S _ k Hi).
    destruct j; cbn in *. unfold set_index; cbn. subst.
    rewrite Zplus_mod_idemp_l.
    replace (_index0 + 1 + Z.of_nat k)%Z with (_index0 + Z.pos (Pos.of_succ_nat k))%Z by lia.
    unfold steps_of. cbn [flat_map]. rewrite <- !app_assoc. reflexivity.
Qed.

(** Once the stop event is set the loop is left at once. *)
Lemma loop_interval_stopped (waits : list bool) (r : Run) :
  _stop_event (run_job r) = true -> _loop_interval waits r = Ok r.
Proof. intros Hs. destruct waits; simpl; now rewrite Hs. Qed.

End JobFacts.

Lemma fired_from_mod (title : string) (groups : list (list string)) (i : Z) (k : nat) :
  fired_from title groups (i mod Z.of_nat (length groups)) k = fired_from title groups i k.
Proof.
  unfold fired_from. apply map_ext. intros n. now rewrite Zplus_mod_idemp_l.
Qed.

(** C3: constructing a [CommandSequenceJob] from an empty list of groups
    raises (the modulo by the zero length), whatever the title, the delay and
    the starting index are; no job object results, neither from the
    constructor nor from [_make_job]. *)
Theorem C3_empty_groups_fail_at_creation (title : string) (delay : Q) (index : Z) :
  Job.__init__ title delay index []
    = Raise (mkExn ZeroDivisionError ["integer division or modulo by zero"]) /\
  (forall job, Job.__init__ title delay index [] <> Ok job) /\
  (forall oi job,
     Wrapper._make_job (Config.mkRawJob "command_sequence" title delay oi []) <> Ok job).
Proof.
  split; [reflexivity |]. split.
  - intros job. discriminate.
  - intros oi job. unfold Wrapper._make_job. simpl. discriminate.
Qed.

(** C6: for a job with at least one group, construction succeeds, and
    - one pass through the timer loop while the job is not stopped puts the
      event whose text is the current group's commands joined by line feeds
      plus a final line feed, moves the index to (index + 1) mod N and then
      waits on the stop event for [delay];
    - [k] passes in a row fire the groups index, index + 1, ... modulo N in
      that order;
    - once the stop event is set the loop does nothing more. *)
Theorem C6_timer_loop_fires_groups_cyclically
    (title : string) (delay : Q) (index : Z) (groups : list (list string)) :
  (1 <= length groups)%nat ->
  exists job,
    Job.__init__ title delay index groups = Ok job /\
    job_inv title delay groups job /\
    (forall j q st woke,
       job_inv title delay groups j -> Job._stop_event j = false ->
       let ev := CommandSequenceJobEvent title
                   (Py.join LF (nth (Z.to_nat (Job._index j)) groups []) +:+ LF) in
       Job._loop_interval [woke] (Job.mkRun j q st) =
         Ok (Job.mkRun
               (Job.set_stop_event woke
                  (Job.set_index ((Job._index j + 1) mod Z.of_nat (length groups)) j))
               (q ++ [ev])
               (st ++ [Job.QueuePut ev; Job.StopEventWait delay]))) /\
    (forall k q st,
       Job._loop_interval (repeat false k) (Job.mkRun job q st) =
         Ok (Job.mkRun
               (Job.set_index ((index + Z.of_nat k) mod Z.of_nat (length groups)) job)
               (q ++ fired_from title groups index k)
               (st ++ steps_of delay (fired_from title groups index k)))) /\
    (forall waits r,
       Job._stop_event (Job.run_job r) = true -> Job._loop_interval waits r = Ok r).
Proof.
  intros Hn. eexists. split; [apply init_ok; exact Hn |].
  destruct (init_inv title delay groups index _ (init_ok title delay groups index Hn))
    as [Hinv Hstop].
  split; [exact Hinv |]. split; [| split].
  - intros j q st woke Hj Hs ev. cbn [Job._loop_interval Job.run_job].
    rewrite Hs. rewrite (loop_body_ok title delay groups woke j q st Hj).
    cbn [res_bind Job.run_job]. rewrite Hs. cbn [orb].
    now destruct woke.
  - intros k q st.
    rewrite (loop_interval_timeouts title delay groups k _ q st Hinv Hstop).
    cbn [Job._index]. rewrite fired_from_mod, Zplus_mod_idemp_l. reflexivity.
  - intros waits r. apply loop_interval_stopped.
Qed.

Lemma C6_witness :
  (1 <= length [["say hi"]; ["say bye"]])%nat /\
  exists job,
    Job.__init__ "ping" 1%Q 0 [["say hi"]; ["say bye"]] = Ok job /\
    Job._loop_interval [false; false; false] (Job.mkRun job [] []) =
      Ok (Job.mkRun (Job.set_index 1 job)
            [CommandSequenceJobEvent "ping" ("say hi" +:+ LF);
             CommandSequenceJobEvent "ping" ("say bye" +:+ LF);
             CommandSequenceJobEvent "ping" ("say hi" +:+ LF)]
            (steps_of 1%Q
               [CommandSequenceJobEvent "ping" ("say hi" +:+ LF);
                CommandSequenceJobEvent "ping" ("say bye" +:+ LF);
                CommandSequenceJobEvent "ping" ("say hi" +:+ LF)])).
Proof.
  split; [simpl; lia |].
  destruct (C6_timer_loop_fires_groups_cyclically "ping" 1%Q 0 [["say hi"]; ["say bye"]])
    as (job & Hjob & _ & _ & Hk & _); [simpl; lia |].
  exists job. split; [exact Hjob |]. exact (Hk 3%nat [] []).
Defined.

(** C7: for a job with at least one group and any starting index, the index
    is in [0, N) right after construction, and however long the timer loop
    runs it does not raise and leaves the index in [0, N). *)
Theorem C7_index_stays_in_range
    (title : string) (delay : Q) (index : Z) (groups : list (list string)) :
  (1 <= length groups)%nat ->
  exists job,
    Job.__init__ title delay index groups = Ok job /\
    Job._length job = Z.of_nat (length groups) /\
    (0 <= Job._index job < Z.of_nat (length groups))%Z /\
    forall waits q st,
      exists r',
        Job._loop_interval waits (Job.mkRun job q st) = Ok r' /\
        Job._length (Job.run_job r') = Z.of_nat (length groups) /\
        (0 <= Job._index (Job.run_job r') < Z.of_nat (length groups))%Z.
Proof.
  intros Hn. eexists. split; [apply init_ok; exact Hn |].
  destruct (init_inv title delay groups index _ (init_ok title delay groups index Hn))
    as [Hinv _].
  split; [apply Hinv |]. split; [apply Hinv |].
  intros waits q st.
  destruct (loop_interval_inv title delay groups waits (Job.mkRun _ q st) Hinv)
    as (r' & Hr & Hinv').
  exists r'. split; [exact Hr |]. split; apply Hinv'.
Qed.

Lemma C7_witness :
  (1 <= length [["say hi"]; ["say bye"]; ["list"]])%nat /\
  exists job,
    Job.__init__ "ping" 1%Q (-4) [["say hi"]; ["say bye"]; ["list"]] = Ok job /\
    (0 <= Job._index job < 3)%Z /\
    exists r',
      Job._loop_interval [false; false; true; false] (Job.mkRun job [] []) = Ok r' /\
      (0 <= Job._index (Job.run_job r') < 3)%Z.
Proof.
  split; [simpl; lia |].
  destruct (C7_index_stays_in_range "ping" 1%Q (-4) [["say hi"]; ["say bye"]; ["list"]])
    as (job & Hjob & _ & Hi & Hloop); [simpl; lia |].
  exists job. split; [exact Hjob |]. split; [exact Hi |].
  destruct (Hloop [false; false; true; false] [] []) as (r' & Hr & _ & Hi').
  exists r'. split; [exact Hr | exact Hi'].
Defined.

(** ** mc_server_wrapper.py *)

Example fresh_wrapper_ok : Wrapper.__init__ sample_config = Ok fresh_wrapper.
Proof. vm_compute. reflexivity. Qed.

Example started_wrapper_ok :
  exists tr, Wrapper.start sample_env fresh_wrapper = (Ok tt, Wrapper.set_trace tr started_wrapper).
Proof. eexists. vm_compute. reflexivity. Qed.

Section WrapperFacts.

Import Wrapper.
Local Open Scope wrapper_scope.

Variable env : Env.

(** C8: [start_server] on a running supervisor prints the error and does
    nothing else: the wrapper object is the one it was but for the trace,
    the trace grows by that one line (so nothing is spawned), and in
    particular the process object and the output thread are untouched. *)
Theorem C8_start_when_running_changes_nothing (w : MCServerWrapper) :
  _is_server_running w = true ->
  exists w',
    start_server env w = (Ok tt, w') /\
    w' = set_trace (trace w ++ [says_error ["Server is already running!"]]) w /\
    _server_process w' = _server_process w /\
    _server_output_thread w' = _server_output_thread w /\
    _is_server_running w' = true.
Proof.
  intros Hrun. eexists. split.
  - unfold start_server, bind, get. rewrite Hrun. reflexivity.
  - split; [reflexivity |]. destruct w; simpl in *. auto.
Qed.

(** C4: [_write_server] ([pipe], the supervisor's write). Without a
    running child it prints the error and does nothing else: nothing is
    written to or flushed on the child's input, the lock is not touched
    and the wrapper object is the one it was but for the trace. With a
    running child it takes the lock, writes the text as it is, flushes and
    releases the lock, in this order. *)
Theorem C4_write_server (text : string) (w : MCServerWrapper) :
  (_is_server_running w = false ->
   _write_server text w
     = (Ok tt, set_trace (trace w ++ [says_error ["Server is not running!"]]) w)) /\
  (_is_server_running w = true -> is_Some (_server_process w) ->
   _write_server text w
     = (Ok tt, set_server_input_lock false
                 (set_trace (trace w ++ [LockAcquire; StdinWrite text; StdinFlush;
                                          LockRelease]) w))).
Proof.
  split.
  - intros Hrun. unfold _write_server, bind, get. rewrite Hrun. reflexivity.
  - intros Hrun [p Hp].
    unfold _write_server, lock_acquire, lock_release, server_process, emit, modify,
      bind, get, ret.
    rewrite Hrun. destruct w; simpl in *. subst.
    cbv [set_server_input_lock set_trace]. simpl.
    rewrite <- !app_assoc. reflexivity.
Qed.

Lemma cmd_map_lookup (name : string) :
  _cmd_map env !! name =
    if String.eqb name "start" then Some (_parse_start_command env)
    else if String.eqb name "restart" then Some (_parse_restart_command env)
    else if String.eqb name "echo" then Some _parse_echo_command
    else if String.eqb name "send" then Some _parse_send_command
    else if String.eqb name ">" then Some _parse_send_command
    else if String.eqb name "load" then Some (_parse_load_command env)
    else if String.eqb name "run" then Some (_parse_run_command env)
    else None.
Proof.
  unfold _cmd_map.
  repeat match goal with
         | |- context [String.eqb name ?k] =>
             destruct (String.eqb_spec name k) as [-> | ?];
             [now rewrite lookup_insert_eq | rewrite lookup_insert_ne by congruence]
         end.
  apply lookup_empty.
Qed.

(** C10: an input event whose text is empty or all spaces is dropped: the
    handler returns [None] and the wrapper object, trace included, is the
    one it was, so no command ran and nothing reached the child. *)
Theorem C10_blank_input_is_discarded (text : string) (w : MCServerWrapper) :
  all_space text = true ->
  _handle_input_event env (InputEvent text) w = (Ok false, w).
Proof.
  intros Hsp. unfold _handle_input_event, bind, ret.
  now rewrite (rstrip_all_space _ Hsp).
Qed.

Lemma bind_ok {A B} (m : M A) (k : A -> M B) (w w' : MCServerWrapper) (a : A) :
  m w = (Ok a, w') -> bind m k w = k a w'.
Proof. intros H. unfold bind. now rewrite H. Qed.

Lemma for_each_print_color (items : list string) (w : MCServerWrapper) :
  for_each items (fun item => _print_color [item] FMT_RED false) w
    = (Ok tt, set_trace
                (trace w ++ map (fun item =>
                                   Print (FMT_RED +:+ Py.join " " [item] +:+ FMT_RESET) true)
                              items) w).
Proof.
  revert w. induction items as [| item items IH]; intros w.
  - simpl. rewrite app_nil_r. now destruct w.
  - cbn [for_each map].
    erewrite bind_ok by reflexivity.
    rewrite IH. cbn [trace set_trace]. rewrite <- app_assoc. reflexivity.
Qed.

Lemma report_error_ok (e : Exn) (arg0 : string) (args : list string) (w : MCServerWrapper) :
  exc_args e = arg0 :: args ->
  report_error env e w = (Ok tt, set_trace (trace w ++ report_actions env e arg0) w).
Proof.
  intros Hargs. unfold report_error.
  erewrite bind_ok by reflexivity.
  erewrite bind_ok by apply for_each_print_color.
  rewrite Hargs.
  erewrite bind_ok by reflexivity.
  unfold report_actions, says_error, _print_color, _print, emit, modify.
  destruct w; cbn [trace set_trace negb]. rewrite <- !app_assoc. reflexivity.
Qed.

(** C2 (amended): when the handler of the event at the head of the queue
    raises an exception that derives from [Exception] and has at least one
    argument, the dispatcher prints the heading, the traceback and the
    first argument, and goes on with the rest of the queue. *)
Theorem C2_handler_exception_is_logged_and_loop_continues
    (fuel : nat) (w w' : MCServerWrapper) (event : Event) (queue : list Event)
    (handler : Event -> M bool) (e : Exn) (arg0 : string) (args : list string) :
  _event_queue w = event :: queue ->
  _event_handler_map env !! type_name event = Some handler ->
  handler event (set_event_queue queue w) = (Raise e, w') ->
  is_Exception (exc_class e) = true ->
  exc_args e = arg0 :: args ->
  _loop_event_queue env (S fuel) w
    = _loop_event_queue env fuel
        (set_trace (trace w' ++ report_actions env e arg0) w').
Proof.
  intros Hq Hmap Hraise Hexc Hargs.
  cbn [_loop_event_queue].
  assert (Hget : queue_get w = (Ok (Some event), set_event_queue queue w)).
  { unfold queue_get, bind, get. rewrite Hq. reflexivity. }
  rewrite (bind_ok _ _ _ _ _ Hget), Hmap.
  erewrite bind_ok.
  2: { unfold try_except. rewrite Hraise, Hexc.
       erewrite bind_ok by (apply (report_error_ok e arg0 args); exact Hargs).
       reflexivity. }
  reflexivity.
Qed.

(** The two loops of the exit handler, entered with [done] already dealt
    with and [todo] still to go. *)
Lemma job_stop_join_ok (done todo : list Job.CommandSequenceJob)
    (j : Job.CommandSequenceJob) (w : MCServerWrapper) :
  _jobs w = done ++ j :: todo ->
  Job._thread j <> Unstarted ->
  (job_stop (length done) ;; job_join (length done)) w
    = (Ok tt, set_trace (trace w ++ [JobStop (length done); JobJoin (length done)])
                (set_jobs (done ++ job_done j :: todo) w)).
Proof.
  intros Hjobs Hstarted.
  unfold job_stop, job_join, bind, get, emit, modify, lift.
  destruct w; cbn in *. subst.
  rewrite alter_app_r_alt, Nat.sub_diag by lia. cbn [alter list_alter].
  rewrite list_lookup_middle by reflexivity.
  unfold Job.join. cbn [Job.stop Job.set_stop_event Job._thread].
  destruct (Job._thread j) eqn:Ht; [congruence | |];
    cbn; rewrite insert_app_r_alt, Nat.sub_diag by lia; cbn;
    unfold job_done, Job.stop, set_trace, set_jobs; cbn; rewrite <- app_assoc;
    reflexivity.
Qed.

Lemma for_each_jobs_ok (todo done : list Job.CommandSequenceJob) (w : MCServerWrapper) :
  _jobs w = done ++ todo ->
  Forall (fun j => Job._thread j <> Unstarted) todo ->
  for_each (seq (length done) (length todo)) (fun i => job_stop i ;; job_join i) w
    = (Ok tt,
       set_trace (trace w ++ flat_map (fun i => [JobStop i; JobJoin i])
                                (seq (length done) (length todo)))
         (set_jobs (done ++ map job_done todo) w)).
Proof.
  revert done w. induction todo as [| j todo IH]; intros done w Hjobs Hall.
  - cbn. rewrite !app_nil_r in *. destruct w; cbn in *. now subst.
  - apply Forall_cons in Hall as [Hj Hall].
    cbn [length seq for_each flat_map].
    rewrite (bind_ok _ _ _ _ _ (job_stop_join_ok done todo j w Hjobs Hj)).
    replace (S (length done)) with (length (done ++ [job_done j]))
      by (rewrite length_app; cbn; lia).
    rewrite IH; [| cbn; now rewrite <- app_assoc | exact Hall].
    destruct w; cbn. rewrite <- !app_assoc. reflexivity.
Qed.

Lemma observer_stop_join_ok (done todo : list Observer.DirectoryObserver)
    (o : Observer.DirectoryObserver) (w : MCServerWrapper) :
  _observers w = done ++ o :: todo ->
  Observer._thread o <> Unstarted ->
  (observer_stop (length done) ;; observer_join (length done)) w
    = (Ok tt, set_trace (trace w ++ [ObserverStop (length done); ObserverJoin (length done)])
                (set_observers (done ++ observer_done o :: todo) w)).
Proof.
  intros Hobs Hstarted.
  unfold observer_stop, observer_join, bind, get, emit, modify, lift.
  destruct w; cbn in *. subst.
  rewrite alter_app_r_alt, Nat.sub_diag by lia. cbn [alter list_alter].
  rewrite list_lookup_middle by reflexivity.
  unfold Observer.join. cbn [Observer.stop Observer._thread].
  destruct (Observer._thread o) eqn:Ht; [congruence | |];
    cbn; rewrite insert_app_r_alt, Nat.sub_diag by lia; cbn;
    unfold observer_done, Observer.stop, set_trace, set_observers; cbn;
    rewrite <- app_assoc; reflexivity.
Qed.

Lemma for_each_observers_ok (todo done : list Observer.DirectoryObserver)
    (w : MCServerWrapper) :
  _observers w = done ++ todo ->
  Forall (fun o => Observer._thread o <> Unstarted) todo ->
  for_each (seq (length done) (length todo)) (fun i => observer_stop i ;; observer_join i) w
    = (Ok tt,
       set_trace (trace w ++ flat_map (fun i => [ObserverStop i; ObserverJoin i])
                                (seq (length done) (length todo)))
         (set_observers (done ++ map observer_done todo) w)).
Proof.
  revert done w. induction todo as [| o todo IH]; intros done w Hobs Hall.
  - cbn. rewrite !app_nil_r in *. destruct w; cbn in *. now subst.
  - apply Forall_cons in Hall as [Ho Hall].
    cbn [length seq for_each flat_map].
    rewrite (bind_ok _ _ _ _ _ (observer_stop_join_ok done todo o w Hobs Ho)).
    replace (S (length done)) with (length (done ++ [observer_done o]))
      by (rewrite length_app; cbn; lia).
    rewrite IH; [| cbn; now rewrite <- app_assoc | exact Hall].
    destruct w; cbn. rewrite <- !app_assoc. reflexivity.
Qed.

Lemma input_thread_join_ok (w : MCServerWrapper) :
  _input_thread w <> Unstarted ->
  input_thread_join w
    = (Ok tt, set_trace (trace w ++ [InputThreadJoin]) (set_input_thread Dead w)).
Proof.
  intros Hin. unfold input_thread_join, bind, get.
  destruct (_input_thread w); [congruence | reflexivity | reflexivity].
Qed.

Lemma stop_server_running_ok (w : MCServerWrapper) (p : Process) :
  _server_output_thread w = Some Alive ->
  _server_process w = Some p ->
  stop_server w
    = (Ok tt,
       set_trace (trace w ++ stop_server_actions)
         (set_server_output_thread (Some Dead)
            (set_server_process (Some (mkProcess (args p) true))
               (set_server_input_lock false w)))).
Proof.
  intros Ht Hp. destruct w; cbn in *. subst.
  lazy -[app]. rewrite <- !app_assoc. reflexivity.
Qed.

Lemma announce_ok {A} (l : list A) (msg : string) (w : MCServerWrapper) :
  match l with
  | [] => ret tt
  | _ => _print [msg] "" "" true
  end w
  = (Ok tt, set_trace (trace w ++ match length l with
                                  | O => []
                                  | _ => [says [msg]]
                                  end) w).
Proof.
  destruct l; [| reflexivity]. cbn. rewrite app_nil_r. now destruct w.
Qed.

Ltac wsimpl :=
  cbn [set_trace set_jobs set_observers set_input_thread set_server_input_lock
       set_server_process set_server_output_thread set_event_queue
       config _event_queue _jobs _observers _server_input_lock _event_queue_thread
       _input_thread _server_process _server_output_thread trace args exited].

Lemma handle_exit_event_ok (event : Event) (w : MCServerWrapper) :
  _input_thread w <> Unstarted ->
  (_is_server_running w = true -> is_Some (_server_process w)) ->
  Forall (fun j => Job._thread j <> Unstarted) (_jobs w) ->
  Forall (fun o => Observer._thread o <> Unstarted) (_observers w) ->
  _handle_exit_event event w = (Ok true, after_exit w).
Proof.
  intros Hin Hproc Hjobs Hobs.
  destruct w as [cfg q jobs obs lock eqt it proc ot tr]. cbn in Hin, Hproc, Hjobs, Hobs.
  unfold _handle_exit_event.
  erewrite bind_ok by reflexivity. wsimpl.
  erewrite bind_ok by reflexivity. wsimpl.
  erewrite bind_ok by (apply input_thread_join_ok; exact Hin). wsimpl.
  erewrite bind_ok by reflexivity.
  unfold after_exit, _is_server_running in *. wsimpl. cbn [_server_output_thread] in Hproc.
  assert (Hrest : forall (w1 : MCServerWrapper),
    _jobs w1 = jobs -> _observers w1 = obs ->
    (jobs0 <- get _jobs ;;
     match jobs0 with
     | [] => ret tt
     | _ => _print ["Cleaning up " +:+ str_of_nat (length jobs0) +:+ " job(s)..."] "" "" true
     end ;;
     for_each (seq 0 (length jobs0)) (fun i => job_stop i ;; job_join i) ;;
     observers <- get _observers ;;
     match observers with
     | [] => ret tt
     | _ => _print ["Cleaning up " +:+ str_of_nat (length observers) +:+ " observer(s)..."]
              "" "" true
     end ;;
     for_each (seq 0 (length observers)) (fun i => observer_stop i ;; observer_join i) ;;
     ret true) w1
    = (Ok true,
       set_trace
         (trace w1
          ++ (match length jobs with
              | O => []
              | _ => [says ["Cleaning up " +:+ str_of_nat (length jobs) +:+ " job(s)..."]]
              end)
          ++ flat_map (fun i => [JobStop i; JobJoin i]) (seq 0 (length jobs))
          ++ (match length obs with
              | O => []
              | _ => [says ["Cleaning up " +:+ str_of_nat (length obs)
                            +:+ " observer(s)..."]]
              end)
          ++ flat_map (fun i => [ObserverStop i; ObserverJoin i]) (seq 0 (length obs)))
         (set_observers (map observer_done obs) (set_jobs (map job_done jobs) w1)))).
  { intros w1 Hj Ho. destruct w1; cbn in Hj, Ho. subst.
    erewrite bind_ok by reflexivity. wsimpl.
    erewrite bind_ok by apply announce_ok. wsimpl.
    erewrite bind_ok by (apply (for_each_jobs_ok jobs []); [reflexivity | exact Hjobs]).
    wsimpl.
    erewrite bind_ok by reflexivity. wsimpl.
    erewrite bind_ok by apply announce_ok. wsimpl.
    erewrite bind_ok by (apply (for_each_observers_ok obs []); [reflexivity | exact Hobs]).
    wsimpl. unfold ret. cbn [length app]. rewrite <- !app_assoc. reflexivity. }
  destruct ot as [[| |] |]; cbn [is_alive] in *.
  2: { destruct (Hproc eq_refl) as [p ->].
       erewrite bind_ok by (apply (stop_server_running_ok _ p); reflexivity). wsimpl.
       rewrite Hrest by reflexivity. wsimpl.
       unfold exit_actions. cbn [option_map args app]. rewrite <- !app_assoc.
       reflexivity. }
  all: erewrite bind_ok by reflexivity; rewrite Hrest by reflexivity; wsimpl;
    unfold exit_actions; cbn [app]; rewrite <- !app_assoc; reflexivity.
Qed.


Lemma handler_map_lookup (name : string) :
  _event_handler_map env !! name =
    if String.eqb name "InputEvent" then Some (_handle_input_event env)
    else if String.eqb name "CommandSequenceJobEvent"
         then Some _handle_command_sequence_job_event
    else if String.eqb name "DirectoryObserverFileChangeEvent"
         then Some (_handle_directory_observer_file_change_event env)
    else if String.eqb name "ExitEvent" then Some _handle_exit_event
    else None.
Proof.
  unfold _event_handler_map.
  repeat match goal with
         | |- context [String.eqb name ?k] =>
             destruct (String.eqb_spec name k) as [-> | ?];
             [now rewrite lookup_insert_eq | rewrite lookup_insert_ne by congruence]
         end.
  apply lookup_empty.
Qed.

(** X18: the exit event at the head of the queue ends the dispatcher: the
    handler runs, its [True] breaks the loop and the last line is printed. *)
Lemma exit_event_ends_dispatch (fuel : nat) (queue : list Event) (w : MCServerWrapper) :
  _event_queue w = ExitEvent :: queue ->
  _input_thread w <> Unstarted ->
  (_is_server_running w = true -> is_Some (_server_process w)) ->
  Forall (fun j => Job._thread j <> Unstarted) (_jobs w) ->
  Forall (fun o => Observer._thread o <> Unstarted) (_observers w) ->
  _loop_event_queue env (S fuel) w
    = (Ok LoopStopped,
       set_trace (trace (after_exit (set_event_queue queue w))
                  ++ [says ["Wrapper has stopped."]])
         (after_exit (set_event_queue queue w))).
Proof.
  intros Hq Hin Hproc Hjobs Hobs.
  cbn [_loop_event_queue].
  assert (Hget : queue_get w = (Ok (Some ExitEvent), set_event_queue queue w)).
  { unfold queue_get, bind, get. rewrite Hq. reflexivity. }
  assert (Hmap : _event_handler_map env !! type_name ExitEvent = Some _handle_exit_event)
    by (rewrite handler_map_lookup; reflexivity).
  rewrite (bind_ok _ _ _ _ _ Hget), Hmap.
  erewrite bind_ok.
  2: { unfold try_except.
       rewrite (handle_exit_event_ok ExitEvent (set_event_queue queue w)) by
         (destruct w; assumption).
       reflexivity. }
  reflexivity.
Qed.

(** X17: an object of a class without a handler is announced and skipped. *)
Lemma unknown_event_is_skipped (fuel : nat) (queue : list Event) (w : MCServerWrapper)
    (class_name repr : string) :
  _event_queue w = OtherEvent class_name repr :: queue ->
  _event_handler_map env !! class_name = None ->
  _loop_event_queue env (S fuel) w
    = _loop_event_queue env fuel
        (set_trace (trace w ++ [Print ((FMT_YELLOW +:+ Py.join " " ["Ignoring unknown event: "
                                                                     +:+ repr]
                                        +:+ FMT_RESET) +:+ LF) false])
           (set_event_queue queue w)).
Proof.
  intros Hq Hmap.
  cbn [_loop_event_queue].
  assert (Hget : queue_get w
                 = (Ok (Some (OtherEvent class_name repr)), set_event_queue queue w)).
  { unfold queue_get, bind, get. rewrite Hq. reflexivity. }
  rewrite (bind_ok _ _ _ _ _ Hget). cbn [type_name]. rewrite Hmap.
  erewrite bind_ok by reflexivity. reflexivity.
Qed.

(** The two loops of [start()]. *)
Lemma job_start_ok (done todo : list Job.CommandSequenceJob)
    (j : Job.CommandSequenceJob) (w : MCServerWrapper) :
  _jobs w = done ++ j :: todo ->
  Job._thread j = Unstarted ->
  job_start (length done) w
    = (Ok tt, set_trace (trace w ++ [JobStart (length done)])
                (set_jobs (done ++ Job.set_thread Alive j :: todo) w)).
Proof.
  intros Hjobs Hj. unfold job_start, bind, get, emit, modify, lift.
  destruct w; cbn in *. subst.
  rewrite list_lookup_middle by reflexivity.
  unfold Job.start. rewrite Hj. cbn.
  rewrite insert_app_r_alt, Nat.sub_diag by lia. reflexivity.
Qed.

Lemma for_each_job_start_ok (todo done : list Job.CommandSequenceJob)
    (w : MCServerWrapper) :
  _jobs w = done ++ todo ->
  Forall (fun j => Job._thread j = Unstarted) todo ->
  exists tr,
    for_each (seq (length done) (length todo)) job_start w
      = (Ok tt, set_trace tr (set_jobs (done ++ map (Job.set_thread Alive) todo) w)).
Proof.
  revert done w. induction todo as [| j todo IH]; intros done w Hjobs Hall.
  - exists (trace w). cbn. rewrite !app_nil_r in *. destruct w; cbn in *. now subst.
  - apply Forall_cons in Hall as [Hj Hall].
    cbn [length seq for_each].
    rewrite (bind_ok _ _ _ _ _ (job_start_ok done todo j w Hjobs Hj)).
    replace (S (length done)) with (length (done ++ [Job.set_thread Alive j]))
      by (rewrite length_app; cbn; lia).
    edestruct (IH (done ++ [Job.set_thread Alive j])) as [tr Htr];
      [| exact Hall | rewrite Htr].
    + cbn. now rewrite <- app_assoc.
    + exists tr. destruct w; cbn. rewrite <- !app_assoc. reflexivity.
Qed.

Lemma observer_start_ok (done todo : list Observer.DirectoryObserver)
    (o : Observer.DirectoryObserver) (w : MCServerWrapper) :
  _observers w = done ++ o :: todo ->
  Observer._thread o = Unstarted ->
  watch_error env (Observer._path o) = None ->
  observer_start env (length done) w
    = (Ok tt, set_trace (trace w ++ [ObserverStart (length done)])
                (set_observers (done ++ Observer.set_thread Alive o :: todo) w)).
Proof.
  intros Hobs Ho Hwatch. unfold observer_start, bind, get, emit, modify, lift.
  destruct w; cbn in *. subst.
  rewrite list_lookup_middle by reflexivity.
  unfold Observer.start. rewrite Hwatch, Ho. cbn.
  rewrite insert_app_r_alt, Nat.sub_diag by lia. reflexivity.
Qed.

Lemma for_each_observer_start_ok (todo done : list Observer.DirectoryObserver)
    (w : MCServerWrapper) :
  _observers w = done ++ todo ->
  Forall (fun o => Observer._thread o = Unstarted) todo ->
  Forall (fun o => watch_error env (Observer._path o) = None) todo ->
  exists tr,
    for_each (seq (length done) (length todo)) (observer_start env) w
      = (Ok tt, set_trace tr (set_observers (done ++ map (Observer.set_thread Alive) todo) w)).
Proof.
  revert done w. induction todo as [| o todo IH]; intros done w Hobs Hall Hwatch.
  - exists (trace w). cbn. rewrite !app_nil_r in *. destruct w; cbn in *. now subst.
  - apply Forall_cons in Hall as [Ho Hall].
    apply Forall_cons in Hwatch as [Hwo Hwatch].
    cbn [length seq for_each].
    rewrite (bind_ok _ _ _ _ _ (observer_start_ok done todo o w Hobs Ho Hwo)).
    replace (S (length done)) with (length (done ++ [Observer.set_thread Alive o]))
      by (rewrite length_app; cbn; lia).
    edestruct (IH (done ++ [Observer.set_thread Alive o])) as [tr Htr];
      [| exact Hall | exact Hwatch | rewrite Htr].
    + cbn. now rewrite <- app_assoc.
    + exists tr. destruct w; cbn. rewrite <- !app_assoc. reflexivity.
Qed.

Lemma make_all_Forall {A B} (make : A -> Res B) (P : B -> Prop) (l : list A) (xs : list B) :
  (forall raw x, make raw = Ok x -> P x) ->
  make_all make l = Ok xs -> Forall P xs.
Proof.
  intros Hmake. revert xs. induction l as [| raw l IH]; cbn; intros xs.
  - intros [= <-]. constructor.
  - destruct (make raw) as [x |] eqn:Hx; cbn; [| discriminate].
    destruct (make_all make l) as [xs' |]; cbn; [| discriminate].
    intros [= <-]. constructor; [now apply (Hmake raw) | now apply IH].
Qed.

Lemma init_threads_unstarted (cfg : Config.MCServerWrapperConfig) (w : MCServerWrapper) :
  __init__ cfg = Ok w ->
  config w = cfg /\ _input_thread w = Unstarted /\ _event_queue_thread w = Unstarted /\
  _server_output_thread w = None /\
  Forall (fun j => Job._thread j = Unstarted) (_jobs w) /\
  Forall (fun o => Observer._thread o = Unstarted) (_observers w).
Proof.
  unfold __init__.
  destruct (make_all _make_job (Config.jobs cfg)) as [jobs |] eqn:Hjobs; cbn;
    [| discriminate].
  destruct (make_all _make_observer (Config.observers cfg)) as [obs |] eqn:Hobs; cbn;
    [| discriminate].
  intros [= <-]. cbn. repeat split.
  - refine (make_all_Forall _ _ _ _ _ Hjobs).
    intros raw j. unfold _make_job, Job.__init__, mod_.
    destruct (String.eqb _ _); [| discriminate].
    destruct (Z.eqb _ 0); cbn; [discriminate |]. now intros [= <-].
  - refine (make_all_Forall _ _ _ _ _ Hobs).
    intros raw o. unfold _make_observer.
    destruct (String.eqb _ _); [| discriminate]. now intros [= <-].
Qed.

Lemma start_server_spawn_ok (w : MCServerWrapper) :
  _is_server_running w = false ->
  popen_error env (split (Config.program (config w))) = None ->
  start_server env w
    = (Ok tt,
       set_trace (trace w ++ [says ["Starting server..."];
                              Popen (split (Config.program (config w)));
                              OutputThreadStart])
         (set_server_output_thread (Some Alive)
            (set_server_process
               (Some (mkProcess (split (Config.program (config w))) false)) w))).
Proof.
  intros Hrun Hpopen. unfold start_server.
  erewrite bind_ok by reflexivity. rewrite Hrun.
  erewrite bind_ok by reflexivity.
  erewrite bind_ok by reflexivity.
  unfold popen. cbn [config set_trace]. rewrite Hpopen.
  unfold bind, emit, modify, ret. destruct w; cbn. rewrite <- !app_assoc. reflexivity.
Qed.

(** X27: start-up. [start()] on a wrapper fresh from its constructor, when the
    child can be spawned and the watch of every observer's directory can be
    set up, leaves every thread started and the server running with its
    process object in place, which is what the exit handler and the
    supervisor's write are entered with. *)
Lemma start_ok (cfg : Config.MCServerWrapperConfig) (w : MCServerWrapper) :
  __init__ cfg = Ok w ->
  popen_error env (split (Config.program cfg)) = None ->
  Forall (fun o => watch_error env (Observer._path o) = None) (_observers w) ->
  exists w',
    start env w = (Ok tt, w') /\
    _input_thread w' <> Unstarted /\
    _is_server_running w' = true /\
    is_Some (_server_process w') /\
    Forall (fun j => Job._thread j <> Unstarted) (_jobs w') /\
    Forall (fun o => Observer._thread o <> Unstarted) (_observers w').
Proof.
  intros Hinit Hpopen Hwatch.
  destruct (init_threads_unstarted cfg w Hinit) as (Hc & Hin & Heq & Hot & Hjobs & Hobs).
  destruct w as [cfg' q jobs obs lock eqt it proc ot tr]. cbn in *. subst.
  destruct (for_each_observer_start_ok obs []
              (mkWrapper cfg q jobs obs lock Alive Alive
                 (Some (mkProcess (split (Config.program cfg)) false)) (Some Alive)
                 (((tr ++ [says ["Starting server..."]; Popen (split (Config.program cfg));
                           OutputThreadStart]) ++ [InputThreadStart])
                  ++ [EventQueueThreadStart]))
              eq_refl Hobs Hwatch) as [tr1 Htr1].
  destruct (for_each_job_start_ok jobs []
              (mkWrapper cfg q jobs (map (Observer.set_thread Alive) obs) lock Alive Alive
                 (Some (mkProcess (split (Config.program cfg)) false)) (Some Alive) tr1)
              eq_refl Hjobs) as [tr2 Htr2].
  eexists. split.
  - unfold start.
    erewrite bind_ok by (apply start_server_spawn_ok; [reflexivity | exact Hpopen]).
    wsimpl.
    do 4 (erewrite bind_ok by reflexivity; wsimpl).
    do 4 (erewrite bind_ok by reflexivity; wsimpl).
    erewrite bind_ok by reflexivity. wsimpl.
    erewrite bind_ok by exact Htr1. wsimpl.
    erewrite bind_ok by reflexivity. wsimpl.
    exact Htr2.
  - wsimpl. cbn [app]. repeat split; try discriminate.
    + eexists. reflexivity.
    + clear. induction jobs; constructor; [discriminate | assumption].
    + clear. induction obs; constructor; [discriminate | assumption].
Qed.

(** C9 (amended): when the text of an input event, its trailing spaces
    removed, has a first token, that line is spaces, the token (which has no
    space in it), spaces and the remainder (which does not begin with a
    space, and is cut off by at least one space when there is one); the
    handler runs the command the token names with the remainder as its
    argument (the empty string when there is none), and for any other token
    passes the line and a line feed to the supervisor's write. *)
Theorem C9_input_dispatch (text token0 : string) (rest : list string)
    (w : MCServerWrapper) :
  split_maxsplit1 (rstrip text) = token0 :: rest ->
  let line := rstrip text in
  let argline := match rest with token1 :: _ => token1 | [] => "" end in
  (exists pre ws,
     line = pre +:+ token0 +:+ ws +:+ argline /\
     all_space pre = true /\ all_space ws = true /\
     token0 <> "" /\ no_space token0 = true /\
     lstrip argline = argline /\ (argline <> "" -> ws <> "")) /\
  _handle_input_event env (InputEvent text) w =
    ((if String.eqb token0 "start" then start_server env
      else if String.eqb token0 "restart" then restart_server env
      else if String.eqb token0 "echo" then echo argline
      else if (String.eqb token0 "send" || String.eqb token0 ">")%bool then send argline
      else if String.eqb token0 "load" then load env argline
      else if String.eqb token0 "run" then run env argline
      else _write_server (line +:+ LF)) ;; ret false) w.
Proof.
  intros Hsplit line argline. split.
  - apply (split_maxsplit1_shape _ _ _ Hsplit).
  - subst line argline. unfold _handle_input_event. unfold bind at 1, ret at 1.
    rewrite Hsplit, cmd_map_lookup.
    repeat match goal with
           | |- context [String.eqb token0 ?k] => destruct (String.eqb token0 k)
           end; reflexivity.
Qed.

(** C1 (amended): [_is_server_running] is the liveness of the output
    thread. It holds exactly when there is an output thread and that
    thread is alive; it holds after [start_server] whenever the spawn
    succeeds, it does not hold after [stop_server], and it stops holding,
    with no [stop_server] at all, once the output thread has run to the end
    of the child's output. *)
Theorem C1_running_is_output_thread_liveness (w : MCServerWrapper) :
  (_is_server_running w = true <-> _server_output_thread w = Some Alive) /\
  (popen_error env (split (Config.program (config w))) = None ->
   exists w', start_server env w = (Ok tt, w') /\ _is_server_running w' = true) /\
  ((_is_server_running w = true -> is_Some (_server_process w)) ->
   exists w', stop_server w = (Ok tt, w') /\ _is_server_running w' = false) /\
  (forall lines, _is_server_running (snd (output_thread_run lines w)) = false).
Proof.
  split; [| split; [| split]].
  - unfold _is_server_running. destruct (_server_output_thread w) as [[] |]; simpl;
      split; intros; congruence.
  - intros Hpopen. destruct (_is_server_running w) eqn:Hrun.
    + eexists. split.
      * unfold start_server, bind, get. rewrite Hrun. reflexivity.
      * destruct w; exact Hrun.
    + destruct w; simpl in *. eexists. split.
      * unfold start_server, popen, _print, emit, modify, bind, get. rewrite Hrun.
        simpl. rewrite Hpopen. reflexivity.
      * reflexivity.
  - intros Hproc. destruct (_is_server_running w) eqn:Hrun.
    + destruct (Hproc eq_refl) as [p Hp].
      assert (Ht : _server_output_thread w = Some Alive).
      { unfold _is_server_running in Hrun.
        destruct (_server_output_thread w) as [[] |]; simpl in Hrun; congruence. }
      destruct w; simpl in *. subst. clear. eexists. split.
      * lazy. reflexivity.
      * reflexivity.
    + eexists. split.
      * unfold stop_server, bind, get. rewrite Hrun. reflexivity.
      * destruct w; exact Hrun.
  - intros lines. unfold output_thread_run.
    destruct (_loop_server_output lines w). reflexivity.
Qed.

End WrapperFacts.

Lemma C8_witness :
  Wrapper._is_server_running started_wrapper = true /\
  exists w',
    Wrapper.start_server sample_env started_wrapper = (Ok tt, w') /\
    Wrapper._server_process w' = Wrapper._server_process started_wrapper /\
    Wrapper.trace w' = [says_error ["Server is already running!"]].
Proof.
  split; [reflexivity |].
  destruct (C8_start_when_running_changes_nothing sample_env started_wrapper)
    as (w' & Hw & Heq & Hp & _); [reflexivity |].
  exists w'. split; [exact Hw |]. split; [exact Hp |]. now rewrite Heq.
Defined.

Lemma C4_witness :
  (Wrapper._is_server_running fresh_wrapper = false /\
   Wrapper._write_server ("say hi" +:+ LF) fresh_wrapper
     = (Ok tt, Wrapper.set_trace [says_error ["Server is not running!"]] fresh_wrapper)) /\
  (Wrapper._is_server_running started_wrapper = true /\
   is_Some (Wrapper._server_process started_wrapper) /\
   Wrapper._write_server ("say hi" +:+ LF) started_wrapper
     = (Ok tt, Wrapper.set_trace
                 [Wrapper.LockAcquire; Wrapper.StdinWrite ("say hi" +:+ LF);
                  Wrapper.StdinFlush; Wrapper.LockRelease] started_wrapper)).
Proof.
  split.
  - split; [reflexivity |].
    exact (proj1 (C4_write_server ("say hi" +:+ LF) fresh_wrapper) eq_refl).
  - split; [reflexivity |]. split; [eexists; reflexivity |].
    exact (proj2 (C4_write_server ("say hi" +:+ LF) started_wrapper) eq_refl
             (ex_intro _ _ eq_refl)).
Defined.

Lemma C10_witness :
  all_space ("  " +:+ TAB) = true /\
  Wrapper._handle_input_event sample_env (InputEvent ("  " +:+ TAB)) started_wrapper
    = (Ok false, started_wrapper).
Proof.
  split; [reflexivity |].
  exact (C10_blank_input_is_discarded sample_env ("  " +:+ TAB) started_wrapper eq_refl).
Defined.

(** C9, as stated, fails: for the empty line the first token is no command
    name (there is no token), yet the handler forwards nothing, while
    passing the line to the supervisor's write, with or without the line
    feed, would have written to the running child. *)
Lemma C9_counterexample :
  split_maxsplit1 (rstrip "") = [] /\
  Wrapper._handle_input_event sample_env (InputEvent "") started_wrapper
    = (Ok false, started_wrapper) /\
  Wrapper.trace (snd (Wrapper._write_server "" started_wrapper))
    = [Wrapper.LockAcquire; Wrapper.StdinWrite ""; Wrapper.StdinFlush; Wrapper.LockRelease] /\
  Wrapper.trace (snd (Wrapper.send "" started_wrapper))
    = [Wrapper.LockAcquire; Wrapper.StdinWrite LF; Wrapper.StdinFlush; Wrapper.LockRelease] /\
  Wrapper.trace started_wrapper = [].
Proof. vm_compute. repeat split. Qed.

Lemma C9_witness :
  split_maxsplit1 (rstrip ">  say hi ") = [">"; "say hi"] /\
  Wrapper._handle_input_event sample_env (InputEvent ">  say hi ") started_wrapper
    = (Ok false,
       Wrapper.set_trace
         [Wrapper.LockAcquire; Wrapper.StdinWrite ("say hi" +:+ LF); Wrapper.StdinFlush;
          Wrapper.LockRelease] started_wrapper).
Proof.
  split; [reflexivity |].
  destruct (C9_input_dispatch sample_env ">  say hi " ">" ["say hi"] started_wrapper eq_refl)
    as [_ H].
  rewrite H. vm_compute. reflexivity.
Defined.

(** A line that names no command goes to the child without its trailing
    spaces and with a line feed. *)
Example raw_command_ex :
  Wrapper._handle_input_event sample_env (InputEvent " list  ") started_wrapper
    = (Ok false,
       Wrapper.set_trace
         [Wrapper.LockAcquire; Wrapper.StdinWrite (" list" +:+ LF); Wrapper.StdinFlush;
          Wrapper.LockRelease] started_wrapper).
Proof. vm_compute. reflexivity. Qed.

(** C1, as stated, fails: after a start that succeeded and no stop at all,
    the flag of the specification is set, but once the output thread has
    reached the end of the child's output [_is_server_running] is false. *)
Lemma C1_counterexample :
  let s := Lifecycle.run sample_env [Lifecycle.Start; Lifecycle.OutputEnds ["Done"]]
             (Lifecycle.mkState fresh_wrapper false) in
  Lifecycle.flag s = true /\
  Wrapper._is_server_running (Lifecycle.wrapper s) = false /\
  Wrapper._server_process (Lifecycle.wrapper s)
    = Wrapper._server_process started_wrapper.
Proof. vm_compute. repeat split. Qed.

Lemma C1_witness :
  (popen_error sample_env (split (Config.program (Wrapper.config fresh_wrapper))) = None /\
   exists w', Wrapper.start_server sample_env fresh_wrapper = (Ok tt, w') /\
              Wrapper._is_server_running w' = true) /\
  ((Wrapper._is_server_running started_wrapper = true ->
    is_Some (Wrapper._server_process started_wrapper)) /\
   exists w', Wrapper.stop_server started_wrapper = (Ok tt, w') /\
              Wrapper._is_server_running w' = false).
Proof.
  split.
  - split; [reflexivity |].
    exact (proj1 (proj2 (C1_running_is_output_thread_liveness sample_env fresh_wrapper))
             eq_refl).
  - split; [intros _; eexists; reflexivity |].
    exact (proj1 (proj2 (proj2
             (C1_running_is_output_thread_liveness sample_env started_wrapper)))
             (fun _ => ex_intro _ _ eq_refl)).
Defined.

(** C2, as stated, fails: a handler that raises [SystemExit] (here the
    procedure run by the console command) is not caught; the dispatcher ends
    with that exception, prints nothing about it and leaves the next event
    in the queue. *)
Lemma C2_counterexample :
  let w := Wrapper.set_event_queue [InputEvent "run quit"; InputEvent "echo hi"]
             started_wrapper in
  Wrapper._loop_event_queue sample_env 5 w
    = (Raise (mkExn SystemExit ["0"]),
       Wrapper.set_trace
         [Wrapper.Print ((Wrapper.FMT_YELLOW +:+ "Running procedure quit with parameters: {}"
                          +:+ Wrapper.FMT_RESET) +:+ LF) false]
         (Wrapper.set_event_queue [InputEvent "echo hi"] started_wrapper)).
Proof. vm_compute. reflexivity. Qed.

Lemma C2_witness :
  let w := Wrapper.set_event_queue [InputEvent "run"; InputEvent "echo hi"] started_wrapper in
  let e := mkExn IndexError ["list index out of range"] in
  Wrapper._loop_event_queue sample_env 3 w
    = (Ok Wrapper.LoopWaiting,
       Wrapper.set_trace (report_actions sample_env e "list index out of range"
                          ++ [says ["hi"]]) started_wrapper).
Proof.
  intros w e.
  rewrite (C2_handler_exception_is_logged_and_loop_continues sample_env 2 w
             (Wrapper.set_event_queue [InputEvent "echo hi"] started_wrapper)
             (InputEvent "run") [InputEvent "echo hi"]
             (Wrapper._handle_input_event sample_env) e "list index out of range" []
             eq_refl eq_refl eq_refl eq_refl eq_refl).
  vm_compute. reflexivity.
Defined.

(** The dispatcher does not survive an exception without arguments: reading
    [e.args[0]] in the handler of the error raises in turn. *)
Example exception_without_arguments_ex :
  let w := Wrapper.set_event_queue [InputEvent "run boom"; InputEvent "echo hi"]
             started_wrapper in
  exists w',
    Wrapper._loop_event_queue sample_env 5 w
      = (Raise (mkExn IndexError ["tuple index out of range"]), w') /\
    Wrapper._event_queue w' = [InputEvent "echo hi"].
Proof. eexists. vm_compute. split; reflexivity. Qed.



(** * Further properties *)

(** ** job.py *)

Lemma loop_interval_app (waits1 waits2 : list bool) (r : Job.Run) :
  Job._loop_interval (waits1 ++ waits2) r
    = res_bind (Job._loop_interval waits1 r) (Job._loop_interval waits2).
Proof.
  revert r. induction waits1 as [| woke waits1 IH]; intros r; cbn [app Job._loop_interval].
  - destruct (Job._stop_event (Job.run_job r)) eqn:Hs; cbn [res_bind]; [| reflexivity].
    now rewrite loop_interval_stopped.
  - destruct (Job._stop_event (Job.run_job r)) eqn:Hs; cbn [res_bind].
    + now rewrite loop_interval_stopped.
    + destruct (Job.loop_body woke r) as [r' |]; cbn [res_bind]; [apply IH | reflexivity].
Qed.

Lemma fired_from_snoc (title : string) (groups : list (list string)) (i : Z) (k : nat) :
  fired_from title groups i (S k)
    = fired_from title groups i k
      ++ [fired_at title groups ((i + Z.of_nat k) mod Z.of_nat (length groups))].
Proof. unfold fired_from. now rewrite seq_S, map_app. Qed.

(** X1: when [stop()] comes during the wait that follows the (k+1)-th
    firing, the timer loop of a job with at least one group has fired exactly
    k+1 events, in cyclic order, and is over: whatever the later waits would
    have been, nothing more is put on the queue. *)
Theorem X1_stop_during_wait_ends_the_loop
    (title : string) (delay : Q) (index : Z) (groups : list (list string))
    (k : nat) (more : list bool) (q : list Event) (st : list Job.Step) :
  (1 <= length groups)%nat ->
  exists job,
    Job.__init__ title delay index groups = Ok job /\
    Job._loop_interval (repeat false k ++ true :: more) (Job.mkRun job q st)
      = Ok (Job.mkRun
              (Job.set_stop_event true
                 (Job.set_index ((index + Z.of_nat (S k)) mod Z.of_nat (length groups)) job))
              (q ++ fired_from title groups index (S k))
              (st ++ steps_of delay (fired_from title groups index (S k)))).
Proof.
  intros Hn. eexists. split; [apply init_ok; exact Hn |].
  destruct (init_inv title delay groups index _ (init_ok title delay groups index Hn))
    as [Hinv Hstop].
  rewrite loop_interval_app.
  rewrite (loop_interval_timeouts title delay groups k _ q st Hinv Hstop).
  cbn [res_bind Job._loop_interval Job.run_job Job.set_index Job._stop_event].
  rewrite (loop_body_ok title delay groups).
  2: { destruct Hinv as (Ht & Hd & Hl & Hc & Hi). unfold job_inv. cbn.
       repeat split; apply Z.mod_pos_bound; lia. }
  cbn [res_bind Job.set_index Job._stop_event Job._index orb].
  rewrite loop_interval_stopped by reflexivity.
  rewrite fired_from_snoc, fired_from_mod.
  unfold steps_of. rewrite flat_map_app. cbn [flat_map app].
  rewrite <- !app_assoc.
  unfold Job.set_index, Job.set_stop_event. cbn.
  rewrite !Zplus_mod_idemp_l.
  replace (index `mod` Z.of_nat (length groups) + Z.of_nat k + 1)%Z
    with (index `mod` Z.of_nat (length groups) + Z.of_nat (S k))%Z by lia.
  rewrite Zplus_mod_idemp_l.
  reflexivity.
Qed.

Lemma X1_witness :
  (1 <= length [["say hi"]; ["say bye"]])%nat /\
  exists job,
    Job.__init__ "ping" 1%Q 1 [["say hi"]; ["say bye"]] = Ok job /\
    Job._loop_interval [false; true; false; false] (Job.mkRun job [] [])
      = Ok (Job.mkRun (Job.set_stop_event true (Job.set_index 1 job))
              [CommandSequenceJobEvent "ping" ("say bye" +:+ LF);
               CommandSequenceJobEvent "ping" ("say hi" +:+ LF)]
              (steps_of 1%Q
                 [CommandSequenceJobEvent "ping" ("say bye" +:+ LF);
                  CommandSequenceJobEvent "ping" ("say hi" +:+ LF)])).
Proof.
  split; [simpl; lia |].
  destruct (X1_stop_during_wait_ends_the_loop "ping" 1%Q 1 [["say hi"]; ["say bye"]]
              1 [false; false] [] []) as (job & Hjob & Hloop); [simpl; lia |].
  exists job. split; [exact Hjob | exact Hloop].
Defined.

(** ** Construction of the wrapper *)

Lemma make_job_valid (r : Config.RawJob) :
  valid_raw_job r = true -> Wrapper._make_job r = Ok (job_of_raw r).
Proof.
  unfold valid_raw_job, Wrapper._make_job, job_of_raw, Job.__init__, mod_.
  intros [Ht Hg]%andb_prop. rewrite Ht.
  destruct (Nat.eqb_spec (length (Config.groups r)) 0) as [| Hne]; [discriminate |].
  destruct (Z.eqb_spec (Z.of_nat (length (Config.groups r))) 0); [lia |].
  reflexivity.
Qed.

Lemma make_job_ok_valid (r : Config.RawJob) (j : Job.CommandSequenceJob) :
  Wrapper._make_job r = Ok j -> valid_raw_job r = true.
Proof.
  unfold valid_raw_job, Wrapper._make_job, Job.__init__, mod_.
  destruct (String.eqb _ _); [| discriminate].
  destruct (Z.eqb_spec (Z.of_nat (length (Config.groups r))) 0) as [| Hne];
    [discriminate |].
  intros _. destruct (Nat.eqb_spec (length (Config.groups r)) 0); [lia | reflexivity].
Qed.

Lemma make_observer_valid (r : Config.RawObserver) :
  valid_raw_observer r = true -> Wrapper._make_observer r = Ok (observer_of_raw r).
Proof.
  unfold valid_raw_observer, Wrapper._make_observer. intros ->. reflexivity.
Qed.

Lemma make_observer_ok_valid (r : Config.RawObserver) (o : Observer.DirectoryObserver) :
  Wrapper._make_observer r = Ok o -> valid_raw_observer r = true.
Proof.
  unfold valid_raw_observer, Wrapper._make_observer.
  now destruct (String.eqb _ _).
Qed.

Lemma make_all_map {A B} (make : A -> Res B) (f : A -> B) (valid : A -> bool) (l : list A) :
  (forall raw, valid raw = true -> make raw = Ok (f raw)) ->
  forallb valid l = true -> Wrapper.make_all make l = Ok (map f l).
Proof.
  intros Hmake. induction l as [| raw l IH]; cbn; [reflexivity |].
  intros [Hr Hl]%andb_prop. now rewrite (Hmake raw Hr), (IH Hl).
Qed.

Lemma make_all_ok_valid {A B} (make : A -> Res B) (valid : A -> bool) (l : list A)
    (xs : list B) :
  (forall raw x, make raw = Ok x -> valid raw = true) ->
  Wrapper.make_all make l = Ok xs -> forallb valid l = true.
Proof.
  intros Hmake. revert xs. induction l as [| raw l IH]; cbn; intros xs; [reflexivity |].
  destruct (make raw) as [x |] eqn:Hx; cbn; [| discriminate].
  destruct (Wrapper.make_all make l) as [xs' |]; cbn; [| discriminate].
  intros _. now rewrite (Hmake raw x Hx), (IH xs').
Qed.

(** The first entry [make] refuses decides how [make_all] ends. *)
Lemma make_all_first_failure {A B} (make : A -> Res B) (f : A -> B) (valid : A -> bool)
    (pre post : list A) (bad : A) (e : Exn) :
  (forall raw, valid raw = true -> make raw = Ok (f raw)) ->
  forallb valid pre = true -> make bad = Raise e ->
  Wrapper.make_all make (pre ++ bad :: post) = Raise e.
Proof.
  intros Hmake Hpre Hbad. induction pre as [| raw pre IH]; cbn.
  - now rewrite Hbad.
  - cbn in Hpre. apply andb_prop in Hpre as [Hr Hpre].
    now rewrite (Hmake raw Hr), (IH Hpre).
Qed.

(** X2: the constructor succeeds exactly on the configurations in which
    every job is a [command_sequence] with at least one group and every
    observer is a [directory]. The wrapper it returns has one job and one
    observer per entry, in the order of the configuration, each job at its
    starting index modulo its number of groups (0 when no index is given);
    no child process, no output thread, no thread started, an empty queue
    and nothing done to the outside world. *)
Theorem X2_constructor_succeeds_exactly_on_valid_configurations
    (cfg : Config.MCServerWrapperConfig) :
  (forallb valid_raw_job (Config.jobs cfg) = true ->
   forallb valid_raw_observer (Config.observers cfg) = true ->
   Wrapper.__init__ cfg
     = Ok (Wrapper.mkWrapper cfg []
             (map job_of_raw (Config.jobs cfg))
             (map observer_of_raw (Config.observers cfg))
             false Unstarted Unstarted None None [])) /\
  (forall w,
     Wrapper.__init__ cfg = Ok w ->
     forallb valid_raw_job (Config.jobs cfg) = true /\
     forallb valid_raw_observer (Config.observers cfg) = true).
Proof.
  split.
  - intros Hjobs Hobs. unfold Wrapper.__init__.
    rewrite (make_all_map _ job_of_raw valid_raw_job _ make_job_valid Hjobs).
    rewrite (make_all_map _ observer_of_raw valid_raw_observer _ make_observer_valid Hobs).
    reflexivity.
  - intros w. unfold Wrapper.__init__.
    destruct (Wrapper.make_all Wrapper._make_job (Config.jobs cfg)) as [jobs |] eqn:Hjobs;
      cbn; [| discriminate].
    destruct (Wrapper.make_all Wrapper._make_observer (Config.observers cfg))
      as [obs |] eqn:Hobs; cbn; [| discriminate].
    intros _. split.
    + exact (make_all_ok_valid _ _ _ _ make_job_ok_valid Hjobs).
    + exact (make_all_ok_valid _ _ _ _ make_observer_ok_valid Hobs).
Qed.

Lemma X2_witness :
  forallb valid_raw_job (Config.jobs sample_config) = true /\
  forallb valid_raw_observer (Config.observers sample_config) = true /\
  Wrapper.__init__ sample_config = Ok fresh_wrapper.
Proof.
  split; [reflexivity |]. split; [reflexivity |].
  exact (proj1 (X2_constructor_succeeds_exactly_on_valid_configurations sample_config)
           eq_refl eq_refl).
Defined.

Lemma make_job_invalid (r : Config.RawJob) :
  valid_raw_job r = false -> Wrapper._make_job r = Raise (job_error r).
Proof.
  unfold valid_raw_job, Wrapper._make_job, job_error, Job.__init__, mod_.
  destruct (String.eqb (Config.job_type r) "command_sequence"); [| reflexivity].
  cbn [andb]. intros Hg%negb_false_iff%Nat.eqb_eq. rewrite Hg. reflexivity.
Qed.

(** X3: the constructor fails with the error of the first entry it
    refuses, jobs before observers, whatever follows that entry. When the
    jobs before it are valid, a job of an unknown type raises [ValueError]
    with the type in the message and a [command_sequence] job without groups
    raises [ZeroDivisionError]; when all jobs and the observers before it are
    valid, an observer of an unknown type raises [ValueError] with the type
    in the message. *)
Theorem X3_first_refused_entry_decides_the_error
    (cfg : Config.MCServerWrapperConfig) :
  (forall pre bad post,
     Config.jobs cfg = pre ++ bad :: post ->
     forallb valid_raw_job pre = true ->
     valid_raw_job bad = false ->
     Wrapper.__init__ cfg = Raise (job_error bad)) /\
  (forall pre bad post,
     forallb valid_raw_job (Config.jobs cfg) = true ->
     Config.observers cfg = pre ++ bad :: post ->
     forallb valid_raw_observer pre = true ->
     valid_raw_observer bad = false ->
     Wrapper.__init__ cfg
       = Raise (mkExn ValueError ["Invalid observer type: " +:+ Config.observer_type bad])).
Proof.
  split.
  - intros pre bad post Hjobs Hpre Hbad. unfold Wrapper.__init__. rewrite Hjobs.
    rewrite (make_all_first_failure _ job_of_raw valid_raw_job pre post bad
               (job_error bad) make_job_valid Hpre (make_job_invalid bad Hbad)).
    reflexivity.
  - intros pre bad post Hjobs Hobs Hpre Hbad. unfold Wrapper.__init__.
    rewrite (make_all_map _ job_of_raw valid_raw_job _ make_job_valid Hjobs).
    cbn [res_bind]. rewrite Hobs.
    rewrite (make_all_first_failure _ observer_of_raw valid_raw_observer pre post bad
               (mkExn ValueError ["Invalid observer type: " +:+ Config.observer_type bad])
               make_observer_valid Hpre); [reflexivity |].
    unfold Wrapper._make_observer. unfold valid_raw_observer in Hbad. rewrite Hbad.
    reflexivity.
Qed.

Lemma X3_witness :
  Wrapper.__init__
    (Config.mkConfig "server"
       (Config.jobs sample_config
        ++ [Config.mkRawJob "cron" "tick" 1%Q None [["list"]];
            Config.mkRawJob "command_sequence" "idle" 1%Q None []])
       [])
    = Raise (mkExn ValueError ["Invalid job type: cron"]) /\
  Wrapper.__init__
    (Config.mkConfig "server"
       (Config.jobs sample_config
        ++ [Config.mkRawJob "command_sequence" "idle" 1%Q None [];
            Config.mkRawJob "cron" "tick" 1%Q None [["list"]]])
       [])
    = Raise (mkExn ZeroDivisionError ["integer division or modulo by zero"]) /\
  Wrapper.__init__
    (Config.mkConfig "server" (Config.jobs sample_config)
       (Config.observers sample_config ++ [Config.mkRawObserver "poll" "functions" None]))
    = Raise (mkExn ValueError ["Invalid observer type: poll"]).
Proof.
  split; [| split].
  - exact (proj1 (X3_first_refused_entry_decides_the_error
                    (Config.mkConfig "server"
                       (Config.jobs sample_config
                        ++ [Config.mkRawJob "cron" "tick" 1%Q None [["list"]];
                            Config.mkRawJob "command_sequence" "idle" 1%Q None []]) []))
             (Config.jobs sample_config) (Config.mkRawJob "cron" "tick" 1%Q None [["list"]])
             [Config.mkRawJob "command_sequence" "idle" 1%Q None []]
             eq_refl eq_refl eq_refl).
  - exact (proj1 (X3_first_refused_entry_decides_the_error
                    (Config.mkConfig "server"
                       (Config.jobs sample_config
                        ++ [Config.mkRawJob "command_sequence" "idle" 1%Q None [];
                            Config.mkRawJob "cron" "tick" 1%Q None [["list"]]]) []))
             (Config.jobs sample_config)
             (Config.mkRawJob "command_sequence" "idle" 1%Q None [])
             [Config.mkRawJob "cron" "tick" 1%Q None [["list"]]]
             eq_refl eq_refl eq_refl).
  - exact (proj2 (X3_first_refused_entry_decides_the_error
                    (Config.mkConfig "server" (Config.jobs sample_config)
                       (Config.observers sample_config
                        ++ [Config.mkRawObserver "poll" "functions" None])))
             (Config.observers sample_config) (Config.mkRawObserver "poll" "functions" None) []
             eq_refl eq_refl eq_refl eq_refl).
Defined.

(** ** The process supervisor *)

Section SupervisorFacts.

Import Wrapper.
Local Open Scope wrapper_scope.

Variable env : Env.

Ltac wnorm :=
  cbn [set_trace set_jobs set_observers set_input_thread set_server_input_lock
       set_server_process set_server_output_thread set_event_queue set_event_queue_thread
       config _event_queue _jobs _observers _server_input_lock _event_queue_thread
       _input_thread _server_process _server_output_thread trace args exited].

Lemma running_thread_alive (w : MCServerWrapper) :
  _is_server_running w = true -> _server_output_thread w = Some Alive.
Proof.
  unfold _is_server_running.
  destruct (_server_output_thread w) as [[| |] |]; cbn; congruence.
Qed.

Lemma stop_server_idle_ok (w : MCServerWrapper) :
  _is_server_running w = false ->
  stop_server w = (Ok tt, set_trace (trace w ++ [says_error ["Server is not running!"]]) w).
Proof.
  intros Hrun. unfold stop_server.
  erewrite bind_ok by reflexivity. rewrite Hrun. reflexivity.
Qed.

(** X4: [stop_server] on a supervisor that is not running prints the error
    and does nothing else: nothing is written to the child, nothing is waited
    for or joined, and the wrapper object is the one it was but for the
    trace. *)
Theorem X4_stop_when_not_running_changes_nothing (w : MCServerWrapper) :
  _is_server_running w = false ->
  exists w',
    stop_server w = (Ok tt, w') /\
    w' = set_trace (trace w ++ [says_error ["Server is not running!"]]) w /\
    _is_server_running w' = false.
Proof.
  intros Hrun. eexists. split; [apply stop_server_idle_ok; exact Hrun |].
  split; [reflexivity |]. destruct w; exact Hrun.
Qed.

(** X5: [stop_server] on a running supervisor sends the line [stop] to the
    child under the input lock, waits for the process, joins the output
    thread, in this order; afterwards the supervisor is not running, the lock
    is free, the process object is the same process, waited for, and the
    jobs, the observers, the queue and the other threads are untouched. *)
Theorem X5_stop_running_server (w : MCServerWrapper) (p : Process) :
  _is_server_running w = true ->
  _server_process w = Some p ->
  exists w',
    stop_server w = (Ok tt, w') /\
    trace w' = trace w ++ stop_server_actions /\
    _is_server_running w' = false /\
    _server_process w' = Some (mkProcess (args p) true) /\
    _server_input_lock w' = false /\
    (config w', _event_queue w', _jobs w', _observers w', _event_queue_thread w',
     _input_thread w')
      = (config w, _event_queue w, _jobs w, _observers w, _event_queue_thread w,
         _input_thread w).
Proof.
  intros Hrun Hp. eexists. split.
  - apply (stop_server_running_ok w p (running_thread_alive w Hrun) Hp).
  - destruct w; repeat split.
Qed.

(** X6: when the child cannot be spawned, [start_server] on a supervisor
    that is not running raises the error of the spawn after announcing the
    start; no process object and no output thread are stored, so the
    supervisor is still not running. *)
Theorem X6_start_server_spawn_failure (w : MCServerWrapper) (e : Exn) :
  _is_server_running w = false ->
  popen_error env (split (Config.program (config w))) = Some e ->
  start_server env w
    = (Raise e, set_trace (trace w ++ [says ["Starting server..."]]) w).
Proof.
  intros Hrun Hpopen. unfold start_server.
  erewrite bind_ok by reflexivity. rewrite Hrun.
  erewrite bind_ok by reflexivity.
  erewrite bind_ok by reflexivity.
  unfold popen. cbn [config set_trace]. rewrite Hpopen. reflexivity.
Qed.

(** X7: [restart_server], when the child can be spawned, always ends with a
    running server on a fresh process. On a running supervisor it is the stop
    sequence followed by the start sequence; on a supervisor that is not
    running, the failed stop only prints its error and the start goes ahead. *)
Theorem X7_restart_server (w : MCServerWrapper) :
  (_is_server_running w = true -> is_Some (_server_process w)) ->
  popen_error env (split (Config.program (config w))) = None ->
  exists w',
    restart_server env w = (Ok tt, w') /\
    trace w'
      = trace w
        ++ (if _is_server_running w then stop_server_actions
            else [says_error ["Server is not running!"]])
        ++ [says ["Starting server..."]; Popen (split (Config.program (config w)));
            OutputThreadStart] /\
    _is_server_running w' = true /\
    _server_process w' = Some (mkProcess (split (Config.program (config w))) false).
Proof.
  intros Hproc Hpopen. unfold restart_server.
  destruct (_is_server_running w) eqn:Hrun.
  - destruct (Hproc eq_refl) as [p Hp].
    erewrite bind_ok
      by apply (stop_server_running_ok w p (running_thread_alive w Hrun) Hp).
    erewrite start_server_spawn_ok; [| reflexivity | exact Hpopen].
    eexists. split; [reflexivity |].
    destruct w; cbn. rewrite <- !app_assoc. repeat split.
  - erewrite bind_ok by apply (stop_server_idle_ok w Hrun).
    erewrite start_server_spawn_ok; [| destruct w; exact Hrun | exact Hpopen].
    eexists. split; [reflexivity |].
    destruct w; cbn. rewrite <- !app_assoc. repeat split.
Qed.

End SupervisorFacts.

Lemma X4_witness :
  Wrapper._is_server_running fresh_wrapper = false /\
  exists w',
    Wrapper.stop_server fresh_wrapper = (Ok tt, w') /\
    w' = Wrapper.set_trace [says_error ["Server is not running!"]] fresh_wrapper.
Proof.
  split; [reflexivity |].
  destruct (X4_stop_when_not_running_changes_nothing fresh_wrapper eq_refl)
    as (w' & Hw & Heq & _).
  exists w'. split; [exact Hw | exact Heq].
Defined.

Lemma X5_witness :
  Wrapper._is_server_running started_wrapper = true /\
  exists w',
    Wrapper.stop_server started_wrapper = (Ok tt, w') /\
    Wrapper.trace w' = stop_server_actions /\
    Wrapper._is_server_running w' = false.
Proof.
  split; [reflexivity |].
  destruct (X5_stop_running_server started_wrapper _ eq_refl eq_refl)
    as (w' & Hw & Htr & Hrun & _).
  exists w'. split; [exact Hw |]. split; [exact Htr | exact Hrun].
Defined.

Lemma X6_witness :
  Wrapper._is_server_running fresh_wrapper = false /\
  Wrapper.start_server no_java_env fresh_wrapper
    = (Raise (mkExn FileNotFoundError ["2"; "No such file or directory: 'java'"]),
       Wrapper.set_trace [says ["Starting server..."]] fresh_wrapper).
Proof.
  split; [reflexivity |].
  exact (X6_start_server_spawn_failure no_java_env fresh_wrapper _ eq_refl eq_refl).
Defined.

Lemma X7_witness :
  exists w',
    Wrapper.restart_server sample_env fresh_wrapper = (Ok tt, w') /\
    Wrapper.trace w'
      = [says_error ["Server is not running!"]; says ["Starting server..."];
         Wrapper.Popen ["java"; "-Xmx1024M"; "-Xms1024M"; "-jar"; "minecraft_server.jar";
                        "nogui"];
         Wrapper.OutputThreadStart] /\
    Wrapper._is_server_running w' = true.
Proof.
  destruct (X7_restart_server sample_env fresh_wrapper)
    as (w' & Hw & Htr & Hrun & _); [discriminate | reflexivity |].
  exists w'. split; [exact Hw |]. split; [| exact Hrun].
  rewrite Htr. vm_compute. reflexivity.
Defined.

(** ** The event handlers and the console commands *)

Section HandlerFacts.

Import Wrapper.
Local Open Scope wrapper_scope.

Variable env : Env.

Ltac wnorm :=
  cbn [set_trace set_jobs set_observers set_input_thread set_server_input_lock
       set_server_process set_server_output_thread set_event_queue set_event_queue_thread
       config _event_queue _jobs _observers _server_input_lock _event_queue_thread
       _input_thread _server_process _server_output_thread trace args exited].

Lemma write_server_running_ok (text : string) (w : MCServerWrapper) :
  _is_server_running w = true -> is_Some (_server_process w) ->
  _write_server text w
    = (Ok tt, set_server_input_lock false (set_trace (trace w ++ write_actions text) w)).
Proof.
  intros Hrun [p Hp].
  unfold _write_server, lock_acquire, lock_release, server_process, emit, modify,
    bind, get, ret.
  rewrite Hrun. destruct w; cbn in *. subst.
  cbv [set_server_input_lock set_trace]. cbn.
  rewrite <- !app_assoc. reflexivity.
Qed.

Lemma write_server_idle_ok (text : string) (w : MCServerWrapper) :
  _is_server_running w = false ->
  _write_server text w
    = (Ok tt, set_trace (trace w ++ [says_error ["Server is not running!"]]) w).
Proof.
  intros Hrun. unfold _write_server, bind, get. rewrite Hrun. reflexivity.
Qed.

(** X8: the handler of a job's event prints the title and passes the text
    of the event to the child as it is, without another line feed; when the
    server is not running the firing only prints the title and the error.
    Either way the handler returns [None]. *)
Theorem X8_job_event_is_piped_unchanged (title text : string) (w : MCServerWrapper) :
  (_is_server_running w = true -> is_Some (_server_process w) ->
   _handle_command_sequence_job_event (CommandSequenceJobEvent title text) w
     = (Ok false,
        set_server_input_lock false
          (set_trace (trace w ++ says ["Running command sequence:"; title]
                                 :: write_actions text) w))) /\
  (_is_server_running w = false ->
   _handle_command_sequence_job_event (CommandSequenceJobEvent title text) w
     = (Ok false,
        set_trace (trace w ++ [says ["Running command sequence:"; title];
                               says_error ["Server is not running!"]]) w)).
Proof.
  split.
  - intros Hrun Hp. unfold _handle_command_sequence_job_event, pipe.
    erewrite bind_ok by reflexivity.
    erewrite bind_ok by (apply write_server_running_ok; destruct w; assumption).
    destruct w; cbn. rewrite <- app_assoc. reflexivity.
  - intros Hrun. unfold _handle_command_sequence_job_event, pipe.
    erewrite bind_ok by reflexivity.
    erewrite bind_ok by (apply write_server_idle_ok; destruct w; assumption).
    destruct w; cbn. rewrite <- app_assoc. reflexivity.
Qed.

Lemma load_file_running_ok (path content : string) (w : MCServerWrapper) :
  read_file env path = Ok content ->
  _is_server_running w = true -> is_Some (_server_process w) ->
  load_file env path w
    = (Ok tt,
       set_server_input_lock false
         (set_trace (trace w ++ says ["Loading file:"; path] :: write_actions content) w)).
Proof.
  intros Hread Hrun Hp. unfold load_file, pipe.
  erewrite bind_ok by reflexivity.
  unfold lift at 1. erewrite bind_ok by (rewrite Hread; reflexivity).
  rewrite write_server_running_ok by (destruct w; assumption).
  destruct w; cbn. rewrite <- app_assoc. reflexivity.
Qed.

Lemma load_file_unreadable (path : string) (e : Exn) (w : MCServerWrapper) :
  read_file env path = Raise e ->
  load_file env path w = (Raise e, set_trace (trace w ++ [says ["Loading file:"; path]]) w).
Proof.
  intros Hread. unfold load_file.
  erewrite bind_ok by reflexivity.
  unfold bind, lift. rewrite Hread. reflexivity.
Qed.

(** X9: a change of a file is handled by sending the file's content to the
    child exactly as read, with nothing added; when the file cannot be read
    the handler raises the error of the read and nothing is written, whether
    the server is running or not. *)
Theorem X9_changed_file_is_sent_as_read (path : string) (w : MCServerWrapper) :
  (forall content,
     read_file env path = Ok content ->
     _is_server_running w = true -> is_Some (_server_process w) ->
     _handle_directory_observer_file_change_event env
       (DirectoryObserverFileChangeEvent path) w
       = (Ok false,
          set_server_input_lock false
            (set_trace (trace w ++ says ["Loading file:"; path] :: write_actions content)
               w))) /\
  (forall e,
     read_file env path = Raise e ->
     _handle_directory_observer_file_change_event env
       (DirectoryObserverFileChangeEvent path) w
       = (Raise e, set_trace (trace w ++ [says ["Loading file:"; path]]) w)).
Proof.
  split.
  - intros content Hread Hrun Hp. unfold _handle_directory_observer_file_change_event.
    erewrite bind_ok by (apply load_file_running_ok; eassumption). reflexivity.
  - intros e Hread. unfold _handle_directory_observer_file_change_event, bind.
    rewrite (load_file_unreadable path e w Hread). reflexivity.
Qed.

(** X10: [load] of a path that is neither a file nor a directory prints the
    error and does nothing else: it does not raise and nothing reaches the
    child. *)
Theorem X10_load_invalid_path (path : string) (w : MCServerWrapper) :
  isfile env path = false -> isdir env path = false ->
  load env path w
    = (Ok tt, set_trace (trace w ++ [says_error ["Cannot load invalid path:"; path]]) w).
Proof.
  intros Hf Hd. unfold load. rewrite Hf, Hd. reflexivity.
Qed.

Lemma for_each_load_file_ok (path : string) (names contents : list string)
    (w : MCServerWrapper) :
  Forall2 (fun name content => read_file env (path_join path name) = Ok content)
    names contents ->
  _server_output_thread w = Some Alive -> is_Some (_server_process w) ->
  exists lock',
    for_each names (fun filename => load_file env (path_join path filename)) w
      = (Ok tt,
         set_server_input_lock lock'
           (set_trace (trace w ++ load_actions path names contents) w)).
Proof.
  intros Hall. revert w. induction Hall as [| name content names contents Hread _ IH];
    intros w Ht Hp.
  - exists (_server_input_lock w). cbn. unfold load_actions. cbn.
    rewrite app_nil_r. now destruct w.
  - cbn [for_each].
    erewrite bind_ok.
    2: { apply (load_file_running_ok _ content); [exact Hread | | exact Hp].
         unfold _is_server_running. now rewrite Ht. }
    edestruct IH as [lock' Hrest]; [| | rewrite Hrest].
    + destruct w; exact Ht.
    + destruct w; exact Hp.
    + exists lock'. destruct w; unfold load_actions; cbn.
      rewrite <- !app_assoc. reflexivity.
Qed.

(** X11: [load] of a directory whose entries can all be read sends, to a
    running server, the content of every entry in the order in which the
    directory lists them, each announced by its path joined to the
    directory's; nothing else is written and the server stays running. *)
Theorem X11_load_directory_in_listing_order
    (path : string) (names contents : list string) (w : MCServerWrapper) :
  isfile env path = false -> isdir env path = true ->
  listdir env path = Ok names ->
  Forall2 (fun name content => read_file env (path_join path name) = Ok content)
    names contents ->
  _is_server_running w = true -> is_Some (_server_process w) ->
  exists w',
    load env path w = (Ok tt, w') /\
    trace w' = trace w ++ says ["Loading directory:"; path]
                          :: load_actions path names contents /\
    _is_server_running w' = true.
Proof.
  intros Hf Hd Hls Hall Hrun Hp. unfold load. rewrite Hf, Hd. unfold load_dir.
  erewrite bind_ok by reflexivity.
  unfold lift at 1. erewrite bind_ok by (rewrite Hls; reflexivity).
  edestruct (for_each_load_file_ok path names contents) as [lock' Hrest];
    [exact Hall | | | rewrite Hrest].
  - destruct w; cbn in *. now apply running_thread_alive in Hrun.
  - destruct w; exact Hp.
  - eexists. split; [reflexivity |]. destruct w; cbn. rewrite <- app_assoc.
    split; [reflexivity | exact Hrun].
Qed.

Lemma for_each_app {A} (l1 l2 : list A) (body : A -> M unit) (w : MCServerWrapper) :
  for_each (l1 ++ l2) body w = (for_each l1 body ;; for_each l2 body) w.
Proof.
  revert w. induction l1 as [| x l1 IH]; intros w; cbn [app for_each].
  - reflexivity.
  - unfold bind in *. destruct (body x w) as [[[] |] w1]; [apply IH | reflexivity].
Qed.

(** X12: [load] of a directory stops at the first entry that cannot be
    read: the entries before it are sent, the error of the read is raised,
    and the entries after it are neither announced nor sent. *)
Theorem X12_load_directory_stops_at_unreadable_entry
    (path : string) (names contents : list string) (bad : string) (later : list string)
    (e : Exn) (w : MCServerWrapper) :
  isfile env path = false -> isdir env path = true ->
  listdir env path = Ok (names ++ bad :: later) ->
  Forall2 (fun name content => read_file env (path_join path name) = Ok content)
    names contents ->
  read_file env (path_join path bad) = Raise e ->
  _is_server_running w = true -> is_Some (_server_process w) ->
  exists w',
    load env path w = (Raise e, w') /\
    trace w' = trace w ++ says ["Loading directory:"; path]
                          :: load_actions path names contents
                          ++ [says ["Loading file:"; path_join path bad]].
Proof.
  intros Hf Hd Hls Hall Hbad Hrun Hp. unfold load. rewrite Hf, Hd. unfold load_dir.
  erewrite bind_ok by reflexivity.
  unfold lift at 1. erewrite bind_ok by (rewrite Hls; reflexivity).
  rewrite for_each_app.
  edestruct (for_each_load_file_ok path names contents) as [lock' Hrest];
    [exact Hall | | | erewrite bind_ok by exact Hrest].
  - destruct w; cbn in *. now apply running_thread_alive in Hrun.
  - destruct w; exact Hp.
  - cbn [for_each]. unfold bind at 1.
    rewrite (load_file_unreadable _ e _ Hbad).
    eexists. split; [reflexivity |]. destruct w; cbn. rewrite <- !app_assoc. reflexivity.
Qed.

Lemma lstrip_all_space (s : string) : all_space s = true -> lstrip s = "".
Proof.
  induction s as [| c s IH]; cbn; [reflexivity |].
  intros [Hc Hs]%andb_prop. rewrite Hc. exact (IH Hs).
Qed.

(** X13: the console command [run] without a procedure name (an empty or
    blank argument) raises [IndexError] before anything is looked up: nothing
    is printed, imported or sent. *)
Theorem X13_run_without_a_name_raises (argline : string) (w : MCServerWrapper) :
  all_space argline = true ->
  run env argline w = (Raise (mkExn IndexError ["list index out of range"]), w).
Proof.
  intros Hsp. unfold run, split_maxsplit1.
  rewrite (lstrip_all_space _ Hsp). reflexivity.
Qed.

Lemma run_params_ok {A} (name : string) (rest : list string) (params : Params env)
    (k : Params env -> M A) (w : MCServerWrapper) :
  parsed_params env (name :: rest) = Ok params ->
  (params0 <- (if (1 <? length (name :: rest))%nat
               then (t <- lift (getitem (name :: rest) 1) ;; lift (yaml_load env t))
               else ret (params_empty env)) ;;
   k params0) w
  = k params w.
Proof.
  intros Hp. destruct rest as [| t rest]; cbn in Hp.
  - injection Hp as <-. reflexivity.
  - cbn [length Nat.ltb Nat.leb].
    erewrite bind_ok; [reflexivity |].
    erewrite bind_ok.
    2: { unfold lift. rewrite (getitem_ok _ 1 t); [reflexivity | lia | reflexivity]. }
    unfold lift. now rewrite Hp.
Qed.

(** X14: [run] of a procedure that cannot be imported, or whose module has
    no [run], prints the matching error and returns normally; nothing is sent
    to the child and no exception reaches the dispatcher. *)
Theorem X14_run_reports_a_missing_procedure
    (argline name : string) (rest : list string) (params : Params env)
    (w : MCServerWrapper) :
  split_maxsplit1 argline = name :: rest ->
  parsed_params env (name :: rest) = Ok params ->
  (forall e,
     import_module env name = Raise e -> exc_class e = ModuleNotFoundError ->
     run env argline w
       = (Ok tt, set_trace (trace w ++ [says_error ["No such procedure: " +:+ name]]) w)) /\
  (import_module env name = Ok None ->
   run env argline w
     = (Ok tt,
        set_trace (trace w ++ [says_error ["Procedure has no " +:+ DQUOTE +:+ "run" +:+ DQUOTE
                                           +:+ " method: " +:+ name]]) w)).
Proof.
  intros Hsplit Hparams. split.
  - intros e Himp Hcls. unfold run. rewrite Hsplit.
    erewrite bind_ok by reflexivity.
    rewrite (run_params_ok name rest params _ w Hparams).
    unfold try_except, bind at 1, lift at 1. rewrite Himp, Hcls. reflexivity.
  - intros Himp. unfold run. rewrite Hsplit.
    erewrite bind_ok by reflexivity.
    rewrite (run_params_ok name rest params _ w Hparams).
    unfold try_except, bind at 1, lift at 1. rewrite Himp.
    unfold bind at 1, raise at 1. reflexivity.
Qed.

Lemma for_each_send_ok (commands : list string) (w : MCServerWrapper) :
  _server_output_thread w = Some Alive -> is_Some (_server_process w) ->
  exists lock',
    for_each commands send w
      = (Ok tt,
         set_server_input_lock lock'
           (set_trace (trace w ++ flat_map (fun c => write_actions (c +:+ LF)) commands) w)).
Proof.
  revert w. induction commands as [| c commands IH]; intros w Ht Hp.
  - exists (_server_input_lock w). cbn. rewrite app_nil_r. now destruct w.
  - cbn [for_each]. unfold send at 1, pipe.
    erewrite bind_ok.
    2: { apply write_server_running_ok; [| exact Hp].
         unfold _is_server_running. now rewrite Ht. }
    edestruct IH as [lock' Hrest]; [| | rewrite Hrest].
    + destruct w; exact Ht.
    + destruct w; exact Hp.
    + exists lock'. destruct w; cbn. rewrite <- !app_assoc. reflexivity.
Qed.

(** X15: [run] of a procedure announces it and sends every command the
    procedure yields to the running child, each followed by one line feed, in
    the order yielded. When the procedure then fails with an exception other
    than [ModuleNotFoundError] and [AttributeError], the commands yielded
    before are already sent and the exception is raised. *)
Theorem X15_run_sends_the_yielded_commands
    (argline name : string) (rest : list string) (params : Params env)
    (run_fn : Params env -> list string * option Exn)
    (commands : list string) (failure : option Exn) (w : MCServerWrapper) :
  split_maxsplit1 argline = name :: rest ->
  parsed_params env (name :: rest) = Ok params ->
  import_module env name = Ok (Some run_fn) ->
  run_fn params = (commands, failure) ->
  (forall e, failure = Some e ->
             exc_class e <> ModuleNotFoundError /\ exc_class e <> AttributeError) ->
  _is_server_running w = true -> is_Some (_server_process w) ->
  exists w',
    run env argline w
      = (match failure with Some e => Raise e | None => Ok tt end, w') /\
    trace w'
      = trace w
        ++ says_warning ["Running procedure " +:+ name +:+ " with parameters: "
                         +:+ params_str env params]
           :: flat_map (fun c => write_actions (c +:+ LF)) commands.
Proof.
  intros Hsplit Hparams Himp Hfn Hfail Hrun Hp. unfold run. rewrite Hsplit.
  erewrite bind_ok by reflexivity.
  rewrite (run_params_ok name rest params _ w Hparams).
  destruct (for_each_send_ok commands
              (set_trace (trace w ++ [says_warning ["Running procedure " +:+ name
                                                    +:+ " with parameters: "
                                                    +:+ params_str env params]]) w))
    as [lock' Hsend].
  { destruct w; cbn in *. now apply running_thread_alive in Hrun. }
  { destruct w; exact Hp. }
  unfold try_except.
  erewrite bind_ok by (unfold lift; rewrite Himp; reflexivity).
  erewrite bind_ok by reflexivity.
  erewrite bind_ok by reflexivity.
  rewrite Hfn.
  erewrite bind_ok by exact Hsend.
  destruct failure as [e |].
  - destruct (Hfail e eq_refl) as [Hm Ha]. unfold raise.
    destruct (exc_class e); try contradiction;
      (eexists; split; [reflexivity |]; destruct w; cbn; rewrite <- app_assoc;
       reflexivity).
  - eexists. split; [reflexivity |]. destruct w; cbn. rewrite <- app_assoc. reflexivity.
Qed.

Lemma never_stops_bind {A} (m : M A) (k : A -> M bool) :
  (forall a, never_stops (k a)) -> never_stops (bind m k).
Proof.
  intros Hk w w'. unfold bind. destruct (m w) as [[a |] w1]; [apply Hk | discriminate].
Qed.

Lemma never_stops_ret_false : never_stops (ret false).
Proof. intros w w'. discriminate. Qed.

Lemma never_stops_raise (e : Exn) : never_stops (raise e).
Proof. intros w w'. discriminate. Qed.

Lemma never_stops_input (event : Event) : never_stops (_handle_input_event env event).
Proof.
  unfold _handle_input_event. apply never_stops_bind. intros to_input.
  destruct (split_maxsplit1 (rstrip to_input)) as [| token0 rest];
    [apply never_stops_ret_false |].
  destruct (_cmd_map env !! token0); apply never_stops_bind; intros;
    apply never_stops_ret_false.
Qed.

Lemma never_stops_job (event : Event) :
  never_stops (_handle_command_sequence_job_event event).
Proof.
  unfold _handle_command_sequence_job_event, no_attribute.
  destruct event; try apply never_stops_raise.
  do 2 (apply never_stops_bind; intros). apply never_stops_ret_false.
Qed.

Lemma never_stops_file (event : Event) :
  never_stops (_handle_directory_observer_file_change_event env event).
Proof.
  unfold _handle_directory_observer_file_change_event, no_attribute.
  destruct event; try apply never_stops_raise.
  apply never_stops_bind; intros. apply never_stops_ret_false.
Qed.

(** X16: only the exit handler can end the dispatcher. Whatever an input,
    a job firing or a file change does, and however it fails, the body of
    the dispatcher's loop does not come out of it with the stop signal: an
    event that stops the loop is dispatched under the name [ExitEvent]. *)
Theorem X16_only_an_exit_event_stops_the_dispatcher
    (event : Event) (w w' : MCServerWrapper) :
  dispatch_one env event w = (Ok true, w') -> type_name event = "ExitEvent".
Proof.
  unfold dispatch_one. rewrite handler_map_lookup.
  assert (Hcatch : forall (h : Event -> M bool),
            never_stops (h event) ->
            try_except (h event)
              (fun e => if is_Exception (exc_class e)
                        then Some (report_error env e ;; ret false) else None) w
            <> (Ok true, w')).
  { intros h Hh. unfold try_except.
    destruct (h event w) as [[b |e] w1] eqn:Hhw.
    - destruct b; [exfalso; exact (Hh w w1 Hhw) | discriminate].
    - destruct (is_Exception (exc_class e)); [| discriminate].
      apply never_stops_bind. intros _. apply never_stops_ret_false. }
  destruct (String.eqb (type_name event) "InputEvent").
  { intros H. exfalso. exact (Hcatch _ (never_stops_input event) H). }
  destruct (String.eqb (type_name event) "CommandSequenceJobEvent").
  { intros H. exfalso. exact (Hcatch _ (never_stops_job event) H). }
  destruct (String.eqb (type_name event) "DirectoryObserverFileChangeEvent").
  { intros H. exfalso. exact (Hcatch _ (never_stops_file event) H). }
  destruct (String.eqb_spec (type_name event) "ExitEvent") as [Hn |]; [now intros _ |].
  intros H. exfalso. revert H. apply never_stops_bind. intros _. apply never_stops_ret_false.
Qed.

End HandlerFacts.

(** ** What the methods keep *)

Section Maintains.

Import Wrapper.
Local Open Scope wrapper_scope.

Context {I : MCServerWrapper -> Prop}.

Lemma maintains_ret {A} (a : A) : maintains I (ret a).
Proof. intros w Hw. exact Hw. Qed.

Lemma maintains_raise {A} (e : Exn) : maintains I (@raise A e).
Proof. intros w Hw. exact Hw. Qed.

Lemma maintains_lift {A} (r : Res A) : maintains I (lift r).
Proof. intros w Hw. exact Hw. Qed.

Lemma maintains_get {A} (f : MCServerWrapper -> A) : maintains I (get f).
Proof. intros w Hw. exact Hw. Qed.

Lemma maintains_modify (g : MCServerWrapper -> MCServerWrapper) :
  (forall w, I w -> I (g w)) -> maintains I (modify g).
Proof. intros Hg w Hw. exact (Hg w Hw). Qed.

Lemma maintains_bind {A B} (m : M A) (k : A -> M B) :
  maintains I m -> (forall a, maintains I (k a)) -> maintains I (bind m k).
Proof.
  intros Hm Hk w Hw. unfold bind. specialize (Hm w Hw).
  destruct (m w) as [[a | e] w1]; cbn in *; [exact (Hk a w1 Hm) | exact Hm].
Qed.

Lemma maintains_try_except {A} (m : M A) (h : Exn -> option (M A)) :
  maintains I m -> (forall e k, h e = Some k -> maintains I k) ->
  maintains I (try_except m h).
Proof.
  intros Hm Hh w Hw. unfold try_except. specialize (Hm w Hw).
  destruct (m w) as [[a | e] w1]; cbn in *; [exact Hm |].
  destruct (h e) as [k |] eqn:He; [exact (Hh e k He w1 Hm) | exact Hm].
Qed.

Lemma maintains_for_each {A} (l : list A) (body : A -> M unit) :
  (forall x, maintains I (body x)) -> maintains I (for_each l body).
Proof.
  intros Hbody. induction l as [| x l IH]; cbn [for_each].
  - apply maintains_ret.
  - apply maintains_bind; [apply Hbody | intros _; exact IH].
Qed.

Lemma maintains_server_process (attr : string) : maintains I (server_process attr).
Proof.
  intros w Hw. unfold server_process. now destruct (_server_process w).
Qed.

End Maintains.

(** One step of a derivation that a method keeps a property. *)
Ltac maintains_step :=
  match goal with
  | |- maintains _ (Wrapper.bind _ _) => apply maintains_bind; [| intros ?]
  | |- maintains _ (Wrapper.ret _) => apply maintains_ret
  | |- maintains _ (Wrapper.raise _) => apply maintains_raise
  | |- maintains _ (Wrapper.lift _) => apply maintains_lift
  | |- maintains _ (Wrapper.get _) => apply maintains_get
  | |- maintains _ (Wrapper.server_process _) => apply maintains_server_process
  | |- maintains _ (Wrapper.for_each _ _) => apply maintains_for_each; intros ?
  | |- maintains _ (if ?b then _ else _) => destruct b
  | |- maintains _ (match ?x with _ => _ end) => destruct x
  | |- maintains _ (let (_, _) := ?x in _) => destruct x
  end.

Section Compose.

Import Wrapper.
Local Open Scope wrapper_scope.

Variable env : Env.
Variable I : MCServerWrapper -> Prop.

(** The property does not read the trace, and the three methods of the
    supervisor keep it. *)
Hypothesis I_trace : forall w tr, I w -> I (set_trace tr w).
Hypothesis H_write : forall text, maintains I (_write_server text).
Hypothesis H_start : maintains I (start_server env).
Hypothesis H_stop : maintains I stop_server.

Lemma maintains_emit (a : Action) : maintains I (emit a).
Proof. apply maintains_modify. intros w Hw. now apply I_trace. Qed.

Lemma maintains_print (args : list string) (prefix suffix : string) (newline : bool) :
  maintains I (_print args prefix suffix newline).
Proof. apply maintains_emit. Qed.

Lemma maintains_send (text : string) : maintains I (send text).
Proof. apply H_write. Qed.

Lemma maintains_load_file (path : string) : maintains I (load_file env path).
Proof.
  unfold load_file. repeat maintains_step; try apply maintains_print. apply H_write.
Qed.

Lemma maintains_load (path : string) : maintains I (load env path).
Proof.
  unfold load, load_dir.
  repeat maintains_step;
    first [apply maintains_load_file | apply maintains_print].
Qed.

Lemma maintains_run (argline : string) : maintains I (run env argline).
Proof.
  unfold run. maintains_step; [maintains_step |].
  maintains_step; [repeat maintains_step |].
  apply maintains_try_except.
  - repeat maintains_step; first [apply maintains_print | apply maintains_send].
  - intros e k. destruct (exc_class e); try discriminate;
      intros [= <-]; apply maintains_print.
Qed.

Lemma maintains_command (name : string) (method : string -> M unit) (argline : string) :
  _cmd_map env !! name = Some method -> maintains I (method argline).
Proof.
  rewrite cmd_map_lookup.
  repeat match goal with
         | |- context [String.eqb name ?k] => destruct (String.eqb name k)
         end; try discriminate; intros [= <-].
  - exact H_start.
  - unfold _parse_restart_command, restart_server.
    apply maintains_bind; [exact H_stop | intros _; exact H_start].
  - apply maintains_print.
  - apply maintains_send.
  - apply maintains_send.
  - apply maintains_load.
  - apply maintains_run.
Qed.

Lemma maintains_input (event : Event) : maintains I (_handle_input_event env event).
Proof.
  unfold _handle_input_event, no_attribute.
  apply maintains_bind; [destruct event; repeat maintains_step | intros to_input].
  destruct (split_maxsplit1 (rstrip to_input)) as [| token0 rest];
    [apply maintains_ret |].
  destruct (_cmd_map env !! token0) as [method |] eqn:Hm.
  - apply maintains_bind; [| intros _; apply maintains_ret].
    exact (maintains_command token0 method _ Hm).
  - apply maintains_bind; [apply maintains_send | intros _; apply maintains_ret].
Qed.

Lemma maintains_job_event (event : Event) :
  maintains I (_handle_command_sequence_job_event event).
Proof.
  unfold _handle_command_sequence_job_event, no_attribute, pipe.
  destruct event; repeat maintains_step; first [apply maintains_print | apply H_write].
Qed.

Lemma maintains_file_event (event : Event) :
  maintains I (_handle_directory_observer_file_change_event env event).
Proof.
  unfold _handle_directory_observer_file_change_event, no_attribute.
  destruct event; repeat maintains_step; apply maintains_load_file.
Qed.

Lemma maintains_report_error (e : Exn) : maintains I (report_error env e).
Proof.
  unfold report_error, _print_error, _print_color.
  repeat maintains_step; apply maintains_print.
Qed.

(** The exit handler also writes the jobs, the observers and the input
    thread. *)
Hypothesis I_jobs : forall w js, I w -> I (set_jobs js w).
Hypothesis I_observers : forall w os, I w -> I (set_observers os w).
Hypothesis I_input : forall w t, I w -> I (set_input_thread t w).

Lemma maintains_exit_event (event : Event) : maintains I (_handle_exit_event event).
Proof.
  unfold _handle_exit_event, input_thread_join, job_stop, job_join, observer_stop,
    observer_join.
  repeat maintains_step;
    first [ apply maintains_print | apply maintains_emit | exact H_stop
          | apply maintains_modify; intros w Hw;
            first [now apply I_jobs | now apply I_observers | now apply I_input] ].
Qed.

Lemma maintains_dispatch_one (event : Event) : maintains I (dispatch_one env event).
Proof.
  unfold dispatch_one. rewrite handler_map_lookup.
  assert (Hcatch : forall (h : M bool),
            maintains I h ->
            maintains I (try_except h
              (fun e => if is_Exception (exc_class e)
                        then Some (report_error env e ;; ret false) else None))).
  { intros h Hh. apply maintains_try_except; [exact Hh |].
    intros e k. destruct (is_Exception (exc_class e)); [| discriminate].
    intros [= <-]. apply maintains_bind; [apply maintains_report_error |].
    intros _. apply maintains_ret. }
  repeat match goal with
         | |- context [String.eqb (type_name event) ?k] =>
             destruct (String.eqb (type_name event) k)
         end.
  - apply Hcatch, maintains_input.
  - apply Hcatch, maintains_job_event.
  - apply Hcatch, maintains_file_event.
  - apply Hcatch, maintains_exit_event.
  - apply maintains_bind; [apply maintains_print | intros _; apply maintains_ret].
Qed.

End Compose.

Section Frame.

Import Wrapper.
Local Open Scope wrapper_scope.

Variable env : Env.
Variable I : MCServerWrapper -> Prop.

(** A property that reads none of the fields the supervisor writes. *)
Hypothesis I_trace : forall w tr, I w -> I (set_trace tr w).
Hypothesis I_lock : forall w b, I w -> I (set_server_input_lock b w).
Hypothesis I_process : forall w p, I w -> I (set_server_process p w).
Hypothesis I_thread : forall w t, I w -> I (set_server_output_thread t w).

Ltac frame_step :=
  first [ maintains_step
        | apply (maintains_print I I_trace)
        | apply (maintains_emit I I_trace)
        | apply maintains_modify; intros w Hw;
          first [now apply I_lock | now apply I_process | now apply I_thread] ].

Lemma frame_write (text : string) : maintains I (_write_server text).
Proof.
  unfold _write_server, lock_acquire, lock_release, _print_error, _print_color.
  repeat frame_step.
Qed.

Lemma frame_start : maintains I (start_server env).
Proof.
  unfold start_server, popen, _print_error, _print_color.
  repeat frame_step.
Qed.

Lemma frame_stop : maintains I stop_server.
Proof.
  unfold stop_server, process_wait, output_thread_join, _print_error, _print_color.
  repeat first [apply frame_write | frame_step].
Qed.

End Frame.

(** ** The dispatcher *)

Section DispatcherFacts.

Import Wrapper.
Local Open Scope wrapper_scope.

Variable env : Env.

(** X19: an exception that does not derive from [Exception] is not caught:
    when the handler of the event at the head of the queue raises one, the
    dispatcher ends with that exception at once; nothing is printed about it
    and the events behind it stay in the queue. *)
Theorem X19_base_exception_ends_the_dispatcher
    (fuel : nat) (w w' : MCServerWrapper) (event : Event) (queue : list Event)
    (handler : Event -> M bool) (e : Exn) :
  _event_queue w = event :: queue ->
  _event_handler_map env !! type_name event = Some handler ->
  handler event (set_event_queue queue w) = (Raise e, w') ->
  is_Exception (exc_class e) = false ->
  _loop_event_queue env (S fuel) w = (Raise e, w').
Proof.
  intros Hq Hmap Hraise Hexc. cbn [_loop_event_queue].
  assert (Hget : queue_get w = (Ok (Some event), set_event_queue queue w)).
  { unfold queue_get, bind, get. rewrite Hq. reflexivity. }
  rewrite (bind_ok _ _ _ _ _ Hget), Hmap.
  unfold bind at 1, try_except. rewrite Hraise, Hexc. reflexivity.
Qed.

(** X20: the dispatcher does not survive an exception without arguments.
    When a handler raises an exception that derives from [Exception] and
    whose [args] is empty, the heading and the traceback are printed, reading
    the first argument of the empty tuple raises [IndexError] inside the
    [except] clause, and the dispatcher ends with that [IndexError]. *)
Theorem X20_exception_without_arguments_ends_the_dispatcher
    (fuel : nat) (w w' : MCServerWrapper) (event : Event) (queue : list Event)
    (handler : Event -> M bool) (e : Exn) :
  _event_queue w = event :: queue ->
  _event_handler_map env !! type_name event = Some handler ->
  handler event (set_event_queue queue w) = (Raise e, w') ->
  is_Exception (exc_class e) = true ->
  exc_args e = [] ->
  _loop_event_queue env (S fuel) w
    = (Raise (mkExn IndexError ["tuple index out of range"]),
       set_trace (trace w' ++ says_error ["Event resulted in an error:"]
                              :: map (fun item =>
                                        Print (FMT_RED +:+ Py.join " " [item] +:+ FMT_RESET)
                                          true)
                                   (format_tb env e)) w').
Proof.
  intros Hq Hmap Hraise Hexc Hargs. cbn [_loop_event_queue].
  assert (Hget : queue_get w = (Ok (Some event), set_event_queue queue w)).
  { unfold queue_get, bind, get. rewrite Hq. reflexivity. }
  rewrite (bind_ok _ _ _ _ _ Hget), Hmap.
  unfold bind at 1, try_except. rewrite Hraise, Hexc.
  unfold bind at 1, report_error.
  erewrite bind_ok by reflexivity.
  erewrite bind_ok by apply for_each_print_color.
  rewrite Hargs. unfold bind, lift. cbn.
  destruct w'; cbn. rewrite <- app_assoc. reflexivity.
Qed.

Lemma dispatch_one_frame (event : Event) (w : MCServerWrapper) :
  let w' := snd (dispatch_one env event w) in
  (config w', _event_queue w', _event_queue_thread w')
    = (config w, _event_queue w, _event_queue_thread w).
Proof.
  apply (maintains_dispatch_one env
           (fun w0 => (config w0, _event_queue w0, _event_queue_thread w0)
                      = (config w, _event_queue w, _event_queue_thread w)));
    try (intros w0 x H; destruct w0; exact H); try reflexivity;
    try (intros x; apply frame_write; intros w0 y H; destruct w0; exact H).
  - apply frame_start; intros w0 y H; destruct w0; exact H.
  - apply frame_stop; intros w0 y H; destruct w0; exact H.
Qed.

(** X21: no event, however it is handled and however its handler ends,
    changes the configuration, the event queue or the dispatcher's own
    thread: handlers neither enqueue nor drop events. *)
Theorem X21_handlers_keep_the_event_queue (event : Event) (w : MCServerWrapper) :
  let w' := snd (dispatch_one env event w) in
  config w' = config w /\
  _event_queue w' = _event_queue w /\
  _event_queue_thread w' = _event_queue_thread w.
Proof.
  pose proof (dispatch_one_frame event w) as H. cbn zeta in *.
  injection H as H1 H2 H3. auto.
Qed.

(** X22: the jobs, the observers and the console reader are only touched by
    the exit handler: the handlers of an input, of a job's firing and of a
    file change leave them as they are, whatever command is run and however
    it ends. *)
Theorem X22_only_exit_touches_jobs_and_observers (event : Event) (w : MCServerWrapper) :
  let kept (w' : MCServerWrapper) :=
    _jobs w' = _jobs w /\ _observers w' = _observers w /\
    _input_thread w' = _input_thread w in
  kept (snd (_handle_input_event env event w)) /\
  kept (snd (_handle_command_sequence_job_event event w)) /\
  kept (snd (_handle_directory_observer_file_change_event env event w)).
Proof.
  set (I := fun w0 : MCServerWrapper =>
              (_jobs w0, _observers w0, _input_thread w0)
              = (_jobs w, _observers w, _input_thread w)).
  assert (It : forall w0 tr, I w0 -> I (set_trace tr w0))
    by (intros w0 x H; destruct w0; exact H).
  assert (Il : forall w0 b, I w0 -> I (set_server_input_lock b w0))
    by (intros w0 x H; destruct w0; exact H).
  assert (Ip : forall w0 p, I w0 -> I (set_server_process p w0))
    by (intros w0 x H; destruct w0; exact H).
  assert (Ith : forall w0 t, I w0 -> I (set_server_output_thread t w0))
    by (intros w0 x H; destruct w0; exact H).
  assert (Hkept : forall w', I w' -> _jobs w' = _jobs w /\ _observers w' = _observers w /\
                                   _input_thread w' = _input_thread w).
  { intros w' H. unfold I in H. injection H as H1 H2 H3. auto. }
  cbn zeta. split; [| split]; apply Hkept.
  - apply (maintains_input env I It (frame_write I It Il) (frame_start env I It Ip Ith)
             (frame_stop I It Il Ip Ith)); reflexivity.
  - apply (maintains_job_event I It (frame_write I It Il)); reflexivity.
  - apply (maintains_file_event env I It (frame_write I It Il)); reflexivity.
Qed.

Lemma loop_step (fuel : nat) (event : Event) (rest : list Event) (w : MCServerWrapper) :
  _event_queue w = event :: rest ->
  _loop_event_queue env (S fuel) w
    = (stop <- dispatch_one env event ;;
       if stop : bool
       then _print ["Wrapper has stopped."] "" "" true ;; ret LoopStopped
       else _loop_event_queue env fuel) (set_event_queue rest w).
Proof.
  intros Hq. cbn [_loop_event_queue].
  assert (Hget : queue_get w = (Ok (Some event), set_event_queue rest w)).
  { unfold queue_get, bind, get. rewrite Hq. reflexivity. }
  rewrite (bind_ok _ _ _ _ _ Hget). unfold dispatch_one.
  destruct (_event_handler_map env !! type_name event); [reflexivity |].
  unfold bind, ret. now destruct (_print_warning _ _) as [[[] |] w1].
Qed.

(** X23: the dispatcher takes the events in the order of the queue, one
    handler call for each. Run on a queue of n events for more than n
    iterations, the loop is the sequence of the events' dispatches, each
    entered with the events behind it still in the queue, up to the first
    that asks to stop or lets an exception out; when none does, it ends
    waiting on the empty queue. It never needs more iterations than that. *)
Theorem X23_events_are_dispatched_in_queue_order
    (events : list Event) (fuel : nat) (w : MCServerWrapper) :
  _event_queue w = events ->
  (length events < fuel)%nat ->
  _loop_event_queue env fuel w = dispatch_all env events w /\
  fst (_loop_event_queue env fuel w) <> Ok LoopOutOfFuel.
Proof.
  revert fuel w. induction events as [| event rest IH]; intros fuel w Hq Hfuel;
    (destruct fuel as [| fuel]; [cbn in Hfuel; lia |]).
  - assert (H : _loop_event_queue env (S fuel) w = (Ok LoopWaiting, w)).
    { cbn [_loop_event_queue]. unfold queue_get, bind, get, ret. now rewrite Hq. }
    rewrite H. split; [reflexivity | cbn; discriminate].
  - rewrite (loop_step fuel event rest w Hq). cbn [dispatch_all].
    unfold bind at 3, modify at 1.
    pose proof (X21_frame := dispatch_one_frame event (set_event_queue rest w)).
    cbn zeta in X21_frame. unfold bind.
    destruct (dispatch_one env event (set_event_queue rest w)) as [[stop | e] w1];
      cbn [snd] in X21_frame; [| split; [reflexivity | cbn; discriminate]].
    destruct stop.
    + split; [reflexivity |]. cbn. discriminate.
    + apply IH; [| cbn in Hfuel; lia].
      injection X21_frame as _ Hq1 _. rewrite Hq1. now destruct w.
Qed.

End DispatcherFacts.

(** ** The console reader *)

Section ConsoleFacts.

Import Wrapper.
Local Open Scope wrapper_scope.

Variable env : Env.

Lemma loop_input_lines (before rest : list string) (w : MCServerWrapper) :
  Forall (fun l => strip l ∉ EXIT_TOKENS) before ->
  _loop_input (before ++ rest) w
    = _loop_input rest
        (set_trace (trace w ++ map (fun l => QueuePut (InputEvent (strip l))) before)
           (set_event_queue (_event_queue w ++ map (fun l => InputEvent (strip l)) before)
              w)).
Proof.
  intros Hall. revert w. induction Hall as [| l before Hl _ IH]; intros w.
  - cbn. rewrite !app_nil_r. now destruct w.
  - cbn [app _loop_input]. destruct (decide (strip l ∈ EXIT_TOKENS)); [contradiction |].
    erewrite bind_ok by reflexivity. erewrite bind_ok by reflexivity.
    rewrite IH. destruct w; cbn. rewrite <- !app_assoc. reflexivity.
Qed.

(** X24: the console reader turns every line before the first exit token
    into an input event carrying the line without its surrounding spaces, in
    the order read; the first line that is an exit token once stripped puts
    the exit event on the queue and ends the reader, and the lines after it
    are never read. *)
Theorem X24_console_reader_until_the_exit_token
    (before later : list string) (exit_line : string) (w : MCServerWrapper) :
  Forall (fun l => strip l ∉ EXIT_TOKENS) before ->
  strip exit_line ∈ EXIT_TOKENS ->
  let events := map (fun l => InputEvent (strip l)) before ++ [ExitEvent] in
  _loop_input (before ++ exit_line :: later) w
    = (Ok tt, set_trace (trace w ++ map QueuePut events)
                (set_event_queue (_event_queue w ++ events) w)).
Proof.
  intros Hbefore Hexit events. rewrite (loop_input_lines before _ w Hbefore).
  cbn [_loop_input]. destruct (decide (strip exit_line ∈ EXIT_TOKENS)); [| contradiction].
  subst events. unfold exit, bind, modify, emit, modify.
  destruct w; cbn. rewrite !map_app, map_map, <- !app_assoc. reflexivity.
Qed.

(** X25: when the console ends without an exit token, the reader has
    enqueued one input event for every line and dies with [EOFError]; no exit
    event is ever enqueued. *)
Theorem X25_console_reader_at_end_of_input (lines : list string) (w : MCServerWrapper) :
  Forall (fun l => strip l ∉ EXIT_TOKENS) lines ->
  let events := map (fun l => InputEvent (strip l)) lines in
  _loop_input lines w
    = (Raise (mkExn EOFError ["EOF when reading a line"]),
       set_trace (trace w ++ map QueuePut events)
         (set_event_queue (_event_queue w ++ events) w)) /\
  ExitEvent ∉ events.
Proof.
  intros Hlines events. split.
  - rewrite <- (app_nil_r lines) at 1. rewrite (loop_input_lines lines [] w Hlines).
    subst events. rewrite map_map. reflexivity.
  - subst events. intros Hin. apply list_elem_of_fmap in Hin as (l & Hl & _).
    discriminate.
Qed.

Lemma rstrip_head (c : ascii) (s : string) :
  isspace c = false -> exists r, rstrip (String c s) = String c r.
Proof.
  intros Hc. cbn [rstrip]. destruct (rstrip s); [rewrite Hc |]; eauto.
Qed.

Lemma rstrip_cons (c : ascii) (s : string) :
  rstrip (String c s)
    = match rstrip s with
      | EmptyString => if isspace c then EmptyString else String c EmptyString
      | r => String c r
      end.
Proof. reflexivity. Qed.

Lemma rstrip_idem (s : string) : rstrip (rstrip s) = rstrip s.
Proof.
  induction s as [| c s IH]; [reflexivity |].
  rewrite rstrip_cons. destruct (rstrip s) as [| d r] eqn:Hr.
  - destruct (isspace c) eqn:Hc; [reflexivity |]. cbn. now rewrite Hc.
  - now rewrite rstrip_cons, IH.
Qed.

Lemma strip_fixpoints (l : string) :
  rstrip (strip l) = strip l /\ lstrip (strip l) = strip l.
Proof.
  unfold strip. split; [apply rstrip_idem |].
  destruct (lstrip l) as [| c s] eqn:Hl; [reflexivity |].
  destruct (rstrip_head c s (lstrip_head _ _ _ Hl)) as [r ->].
  cbn. now rewrite (lstrip_head _ _ _ Hl).
Qed.

(** X26: a console line whose first word is no command reaches the
    supervisor's write as typed but for the surrounding spaces, followed by
    one line feed: the handler's own stripping changes nothing on what the
    reader enqueued. *)
Theorem X26_raw_console_line_is_forwarded_stripped
    (l token0 : string) (rest : list string) (w : MCServerWrapper) :
  split_maxsplit1 (strip l) = token0 :: rest ->
  _cmd_map env !! token0 = None ->
  _handle_input_event env (InputEvent (strip l)) w
    = (_write_server (strip l +:+ LF) ;; ret false) w.
Proof.
  intros Hsplit Hcmd. unfold _handle_input_event.
  erewrite bind_ok by reflexivity.
  rewrite (proj1 (strip_fixpoints l)), Hsplit, Hcmd. reflexivity.
Qed.

(** X28: when the child cannot be spawned, [start()] fails with the error
    of the spawn before any thread is started: the console reader, the
    dispatcher, the observers and the jobs are left as they were. *)
Theorem X28_start_fails_before_any_thread_is_started (w : MCServerWrapper) (e : Exn) :
  _is_server_running w = false ->
  popen_error env (split (Config.program (config w))) = Some e ->
  start env w = (Raise e, set_trace (trace w ++ [says ["Starting server..."]]) w).
Proof.
  intros Hrun Hpopen. unfold start, start_server.
  unfold bind at 1.
  erewrite bind_ok by reflexivity. rewrite Hrun.
  erewrite bind_ok by reflexivity.
  erewrite bind_ok by reflexivity.
  unfold popen. cbn [config set_trace]. rewrite Hpopen. reflexivity.
Qed.

End ConsoleFacts.

(** ** The supervisor's invariant *)

Section InvariantFacts.

Import Wrapper.
Local Open Scope wrapper_scope.

Variable env : Env.

Lemma inv_trace (w : MCServerWrapper) (tr : list Action) :
  supervisor_inv w -> supervisor_inv (set_trace tr w).
Proof. now destruct w. Qed.

Lemma inv_write (text : string) : maintains supervisor_inv (_write_server text).
Proof.
  intros [cfg q jobs obs lock eqt it proc ot tr] Hwf. unfold supervisor_inv in *.
  cbn in Hwf.
  destruct ot as [[| |] |], proc as [p |];
    try (exfalso; apply Hwf; congruence);
    cbn; congruence.
Qed.

Lemma inv_start : maintains supervisor_inv (start_server env).
Proof.
  intros [cfg q jobs obs lock eqt it proc ot tr] Hwf. unfold supervisor_inv in *.
  cbn in Hwf. unfold start_server, popen, bind, get.
  destruct ot as [[| |] |]; cbn;
    try (destruct (popen_error env (split (Config.program cfg))); cbn);
    try exact Hwf; congruence.
Qed.

Lemma inv_stop : maintains supervisor_inv stop_server.
Proof.
  intros [cfg q jobs obs lock eqt it proc ot tr] Hwf. unfold supervisor_inv in *.
  cbn in Hwf.
  destruct ot as [[| |] |], proc as [p |];
    try (exfalso; apply Hwf; congruence);
    cbn; congruence.
Qed.

Lemma inv_start_all : maintains supervisor_inv (start env).
Proof.
  unfold start, observer_start, job_start.
  apply maintains_bind; [exact inv_start | intros _].
  repeat first
    [ maintains_step
    | apply (maintains_emit supervisor_inv inv_trace)
    | apply maintains_modify; intros w Hw; destruct w; exact Hw ].
Qed.

(** X29: the supervisor never has an output thread without a process. A
    wrapper fresh from its constructor has neither; [start()], however far
    it gets, and every dispatch of an event, whatever the event, the command
    it runs and the way it ends, keep that an output thread object only
    exists together with a process object. So whenever the server counts as
    running there is a process object to write to, to wait for and to
    stop. *)
Theorem X29_supervisor_invariant :
  (forall cfg w, __init__ cfg = Ok w -> supervisor_inv w) /\
  maintains supervisor_inv (start env) /\
  (forall event, maintains supervisor_inv (dispatch_one env event)) /\
  (forall w, supervisor_inv w -> _is_server_running w = true ->
             is_Some (_server_process w)).
Proof.
  split; [| split; [| split]].
  - intros cfg w Hinit.
    destruct (init_threads_unstarted cfg w Hinit) as (_ & _ & _ & Hot & _).
    intros Hthread. exfalso. exact (Hthread Hot).
  - exact inv_start_all.
  - intros event.
    apply (maintains_dispatch_one env supervisor_inv inv_trace inv_write inv_start inv_stop);
      intros w x Hw; destruct w; exact Hw.
  - intros w Hwf Hrun. apply running_thread_alive in Hrun.
    unfold supervisor_inv in Hwf.
    destruct (_server_process w) as [p |]; [now exists p |].
    exfalso. apply Hwf; congruence.
Qed.

End InvariantFacts.

(** ** The further properties at concrete inputs *)

Lemma X8_witness :
  Wrapper._handle_command_sequence_job_event
    (CommandSequenceJobEvent "ping" ("say hi" +:+ LF)) started_wrapper
    = (Ok false,
       Wrapper.set_server_input_lock false
         (Wrapper.set_trace (says ["Running command sequence:"; "ping"]
                             :: write_actions ("say hi" +:+ LF)) started_wrapper)) /\
  Wrapper._handle_command_sequence_job_event
    (CommandSequenceJobEvent "ping" ("say hi" +:+ LF)) fresh_wrapper
    = (Ok false,
       Wrapper.set_trace [says ["Running command sequence:"; "ping"];
                          says_error ["Server is not running!"]] fresh_wrapper).
Proof.
  split.
  - exact (proj1 (X8_job_event_is_piped_unchanged "ping" ("say hi" +:+ LF) started_wrapper)
             eq_refl (ex_intro _ _ eq_refl)).
  - exact (proj2 (X8_job_event_is_piped_unchanged "ping" ("say hi" +:+ LF) fresh_wrapper)
             eq_refl).
Defined.

Lemma X9_witness :
  Wrapper._handle_directory_observer_file_change_event sample_env
    (DirectoryObserverFileChangeEvent "cmds.txt") started_wrapper
    = (Ok false,
       Wrapper.set_server_input_lock false
         (Wrapper.set_trace (says ["Loading file:"; "cmds.txt"]
                             :: write_actions ("say one" +:+ LF +:+ "say two" +:+ LF))
            started_wrapper)) /\
  Wrapper._handle_directory_observer_file_change_event sample_env
    (DirectoryObserverFileChangeEvent "gone.txt") started_wrapper
    = (Raise (mkExn FileNotFoundError ["2"; "No such file or directory"]),
       Wrapper.set_trace [says ["Loading file:"; "gone.txt"]] started_wrapper).
Proof.
  split.
  - exact (proj1 (X9_changed_file_is_sent_as_read sample_env "cmds.txt" started_wrapper)
             _ eq_refl eq_refl (ex_intro _ _ eq_refl)).
  - exact (proj2 (X9_changed_file_is_sent_as_read sample_env "gone.txt" started_wrapper)
             _ eq_refl).
Defined.

Lemma X10_witness :
  isfile sample_env "nowhere" = false /\ isdir sample_env "nowhere" = false /\
  Wrapper.load sample_env "nowhere" started_wrapper
    = (Ok tt, Wrapper.set_trace [says_error ["Cannot load invalid path:"; "nowhere"]]
                started_wrapper).
Proof.
  split; [reflexivity |]. split; [reflexivity |].
  exact (X10_load_invalid_path sample_env "nowhere" started_wrapper eq_refl eq_refl).
Defined.

Lemma X11_witness :
  exists w',
    Wrapper.load datapack_env "pack" started_wrapper = (Ok tt, w') /\
    Wrapper.trace w'
      = [says ["Loading directory:"; "pack"];
         says ["Loading file:"; "pack/a.txt"];
         Wrapper.LockAcquire; Wrapper.StdinWrite ("say a" +:+ LF); Wrapper.StdinFlush;
         Wrapper.LockRelease;
         says ["Loading file:"; "pack/b.txt"];
         Wrapper.LockAcquire; Wrapper.StdinWrite ("say b" +:+ LF); Wrapper.StdinFlush;
         Wrapper.LockRelease] /\
    Wrapper._is_server_running w' = true.
Proof.
  destruct (X11_load_directory_in_listing_order datapack_env "pack"
              ["a.txt"; "b.txt"] ["say a" +:+ LF; "say b" +:+ LF] started_wrapper
              eq_refl eq_refl eq_refl
              ltac:(repeat constructor)
              eq_refl (ex_intro _ _ eq_refl))
    as (w' & Hw & Htr & Hrun).
  exists w'. split; [exact Hw |]. split; [exact Htr | exact Hrun].
Defined.

Lemma X12_witness :
  exists w',
    Wrapper.load datapack_env "broken" started_wrapper
      = (Raise (mkExn IsADirectoryError ["21"; "Is a directory: 'broken/sub'"]), w') /\
    Wrapper.trace w'
      = [says ["Loading directory:"; "broken"];
         says ["Loading file:"; "broken/a.txt"];
         Wrapper.LockAcquire; Wrapper.StdinWrite ("say a" +:+ LF); Wrapper.StdinFlush;
         Wrapper.LockRelease;
         says ["Loading file:"; "broken/sub"]].
Proof.
  destruct (X12_load_directory_stops_at_unreadable_entry datapack_env "broken"
              ["a.txt"] ["say a" +:+ LF] "sub" ["b.txt"] _ started_wrapper
              eq_refl eq_refl eq_refl
              ltac:(repeat constructor)
              eq_refl eq_refl (ex_intro _ _ eq_refl))
    as (w' & Hw & Htr).
  exists w'. split; [exact Hw | exact Htr].
Defined.

Lemma X13_witness :
  all_space "  " = true /\
  Wrapper.run sample_env "  " started_wrapper
    = (Raise (mkExn IndexError ["list index out of range"]), started_wrapper).
Proof.
  split; [reflexivity |].
  exact (X13_run_without_a_name_raises sample_env "  " started_wrapper eq_refl).
Defined.

Lemma X14_witness :
  Wrapper.run datapack_env "nothing" started_wrapper
    = (Ok tt, Wrapper.set_trace [says_error ["No such procedure: nothing"]] started_wrapper) /\
  Wrapper.run datapack_env "empty" started_wrapper
    = (Ok tt,
       Wrapper.set_trace [says_error ["Procedure has no " +:+ DQUOTE +:+ "run" +:+ DQUOTE
                                      +:+ " method: empty"]] started_wrapper).
Proof.
  split.
  - exact (proj1 (X14_run_reports_a_missing_procedure datapack_env "nothing" "nothing" []
                    tt started_wrapper eq_refl eq_refl)
             _ eq_refl eq_refl).
  - exact (proj2 (X14_run_reports_a_missing_procedure datapack_env "empty" "empty" []
                    tt started_wrapper eq_refl eq_refl)
             eq_refl).
Defined.

Lemma X15_witness :
  exists w',
    Wrapper.run sample_env "greet" started_wrapper = (Ok tt, w') /\
    Wrapper.trace w'
      = [says_warning ["Running procedure greet with parameters: {}"];
         Wrapper.LockAcquire; Wrapper.StdinWrite ("say hello" +:+ LF); Wrapper.StdinFlush;
         Wrapper.LockRelease].
Proof.
  destruct (X15_run_sends_the_yielded_commands sample_env "greet" "greet" [] tt
              (fun _ => (["say hello"], None)) ["say hello"] None started_wrapper
              eq_refl eq_refl eq_refl eq_refl
              ltac:(intros e He; discriminate He)
              eq_refl (ex_intro _ _ eq_refl))
    as (w' & Hw & Htr).
  exists w'. split; [exact Hw | exact Htr].
Defined.

Lemma X16_witness :
  exists w',
    dispatch_one sample_env ExitEvent started_wrapper = (Ok true, w') /\
    type_name ExitEvent = "ExitEvent".
Proof.
  assert (H : dispatch_one sample_env ExitEvent started_wrapper
              = (Ok true, snd (dispatch_one sample_env ExitEvent started_wrapper)))
    by (vm_compute; reflexivity).
  exists (snd (dispatch_one sample_env ExitEvent started_wrapper)).
  split; [exact H |].
  exact (X16_only_an_exit_event_stops_the_dispatcher sample_env ExitEvent started_wrapper
           _ H).
Defined.

Lemma X19_witness :
  exists w',
    Wrapper._loop_event_queue sample_env 1
      (Wrapper.set_event_queue [InputEvent "run quit"; InputEvent "say hi"] started_wrapper)
      = (Raise (mkExn SystemExit ["0"]), w') /\
    Wrapper.trace w' = [says_warning ["Running procedure quit with parameters: {}"]].
Proof.
  pose (w := Wrapper.set_event_queue [InputEvent "run quit"; InputEvent "say hi"]
               started_wrapper).
  pose (w' := snd (Wrapper._handle_input_event sample_env (InputEvent "run quit")
                     (Wrapper.set_event_queue [InputEvent "say hi"] w))).
  assert (H : Wrapper._handle_input_event sample_env (InputEvent "run quit")
                (Wrapper.set_event_queue [InputEvent "say hi"] w)
              = (Raise (mkExn SystemExit ["0"]), w'))
    by (vm_compute; reflexivity).
  exists w'. split.
  - exact (X19_base_exception_ends_the_dispatcher sample_env 0 w w'
             (InputEvent "run quit") [InputEvent "say hi"]
             (Wrapper._handle_input_event sample_env) (mkExn SystemExit ["0"])
             eq_refl (handler_map_lookup sample_env "InputEvent") H eq_refl).
  - vm_compute. reflexivity.
Defined.

Lemma X20_witness :
  exists w',
    Wrapper._loop_event_queue sample_env 1
      (Wrapper.set_event_queue [InputEvent "run boom"; InputEvent "say hi"] started_wrapper)
      = (Raise (mkExn IndexError ["tuple index out of range"]), w') /\
    Wrapper._event_queue w' = [InputEvent "say hi"].
Proof.
  pose (w := Wrapper.set_event_queue [InputEvent "run boom"; InputEvent "say hi"]
               started_wrapper).
  pose (w' := snd (Wrapper._handle_input_event sample_env (InputEvent "run boom")
                     (Wrapper.set_event_queue [InputEvent "say hi"] w))).
  assert (H : Wrapper._handle_input_event sample_env (InputEvent "run boom")
                (Wrapper.set_event_queue [InputEvent "say hi"] w)
              = (Raise (mkExn ValueError []), w'))
    by (vm_compute; reflexivity).
  eexists. split.
  - exact (X20_exception_without_arguments_ends_the_dispatcher sample_env 0 w w'
             (InputEvent "run boom") [InputEvent "say hi"]
             (Wrapper._handle_input_event sample_env) (mkExn ValueError [])
             eq_refl (handler_map_lookup sample_env "InputEvent") H eq_refl eq_refl).
  - vm_compute. reflexivity.
Defined.

Lemma X17_witness :
  Wrapper._loop_event_queue sample_env 2
    (Wrapper.set_event_queue [OtherEvent "TickEvent" "<TickEvent 7>"] started_wrapper)
    = (Ok Wrapper.LoopWaiting,
       Wrapper.set_trace [says_warning ["Ignoring unknown event: <TickEvent 7>"]]
         started_wrapper).
Proof.
  etransitivity.
  - exact (unknown_event_is_skipped sample_env 1 []
             (Wrapper.set_event_queue [OtherEvent "TickEvent" "<TickEvent 7>"] started_wrapper)
             "TickEvent" "<TickEvent 7>" eq_refl (handler_map_lookup sample_env "TickEvent")).
  - vm_compute. reflexivity.
Defined.

Lemma X18_witness :
  exists w',
    Wrapper._loop_event_queue sample_env 1
      (Wrapper.set_event_queue [ExitEvent; InputEvent "say late"] started_wrapper)
      = (Ok Wrapper.LoopStopped, w') /\
    Wrapper.trace w' = exit_actions true 1 1 ++ [says ["Wrapper has stopped."]] /\
    Wrapper._event_queue w' = [InputEvent "say late"] /\
    Wrapper._is_server_running w' = false.
Proof.
  eexists. split.
  - apply (exit_event_ends_dispatch sample_env 0 [InputEvent "say late"]
             (Wrapper.set_event_queue [ExitEvent; InputEvent "say late"] started_wrapper)).
    + reflexivity.
    + cbn. discriminate.
    + intros _. eexists. reflexivity.
    + repeat constructor. cbn. discriminate.
    + repeat constructor. cbn. discriminate.
  - vm_compute. repeat split.
Defined.

Lemma X23_witness :
  Wrapper._loop_event_queue sample_env 5
    (Wrapper.set_event_queue
       [InputEvent "echo hi"; InputEvent ""; ExitEvent; InputEvent "say late"]
       started_wrapper)
    = dispatch_all sample_env
        [InputEvent "echo hi"; InputEvent ""; ExitEvent; InputEvent "say late"]
        (Wrapper.set_event_queue
           [InputEvent "echo hi"; InputEvent ""; ExitEvent; InputEvent "say late"]
           started_wrapper) /\
  fst (Wrapper._loop_event_queue sample_env 5
         (Wrapper.set_event_queue
            [InputEvent "echo hi"; InputEvent ""; ExitEvent; InputEvent "say late"]
            started_wrapper))
    = Ok Wrapper.LoopStopped.
Proof.
  destruct (X23_events_are_dispatched_in_queue_order sample_env
              [InputEvent "echo hi"; InputEvent ""; ExitEvent; InputEvent "say late"] 5
              (Wrapper.set_event_queue
                 [InputEvent "echo hi"; InputEvent ""; ExitEvent; InputEvent "say late"]
                 started_wrapper)
              eq_refl ltac:(cbn; lia)) as [Heq _].
  split; [exact Heq |].
  vm_compute. reflexivity.
Defined.

Lemma X24_witness :
  Wrapper._loop_input ["say hi  " +:+ LF; LF; " exit " +:+ LF; "say late" +:+ LF]
    fresh_wrapper
    = (Ok tt,
       Wrapper.set_trace
         [Wrapper.QueuePut (InputEvent "say hi"); Wrapper.QueuePut (InputEvent "");
          Wrapper.QueuePut ExitEvent]
         (Wrapper.set_event_queue [InputEvent "say hi"; InputEvent ""; ExitEvent]
            fresh_wrapper)).
Proof.
  refine (X24_console_reader_until_the_exit_token
            ["say hi  " +:+ LF; LF] ["say late" +:+ LF] (" exit " +:+ LF) fresh_wrapper _ _).
  - repeat (constructor; [cbn beta; refine (bool_decide_unpack _ _); vm_compute; exact I |]).
    constructor.
  - refine (bool_decide_unpack _ _). vm_compute. exact I.
Defined.

Lemma X25_witness :
  Wrapper._loop_input ["say hi" +:+ LF; "stop" +:+ LF] fresh_wrapper
    = (Raise (mkExn EOFError ["EOF when reading a line"]),
       Wrapper.set_trace
         [Wrapper.QueuePut (InputEvent "say hi"); Wrapper.QueuePut (InputEvent "stop")]
         (Wrapper.set_event_queue [InputEvent "say hi"; InputEvent "stop"] fresh_wrapper)).
Proof.
  refine (proj1 (X25_console_reader_at_end_of_input
                   ["say hi" +:+ LF; "stop" +:+ LF] fresh_wrapper _)).
  repeat (constructor; [cbn beta; refine (bool_decide_unpack _ _); vm_compute; exact I |]).
  constructor.
Defined.

Lemma X26_witness :
  Wrapper._handle_input_event sample_env (InputEvent "say  hello") started_wrapper
    = (Ok false,
       Wrapper.set_server_input_lock false
         (Wrapper.set_trace (write_actions ("say  hello" +:+ LF)) started_wrapper)).
Proof.
  etransitivity.
  - exact (X26_raw_console_line_is_forwarded_stripped sample_env
             ("  say  hello " +:+ LF) "say" ["hello"] started_wrapper
             eq_refl (cmd_map_lookup sample_env "say")).
  - vm_compute. reflexivity.
Defined.

Lemma X27_witness :
  exists w',
    Wrapper.start sample_env fresh_wrapper = (Ok tt, w') /\
    Wrapper._input_thread w' <> Unstarted /\
    Wrapper._is_server_running w' = true /\
    is_Some (Wrapper._server_process w') /\
    Forall (fun j => Job._thread j <> Unstarted) (Wrapper._jobs w') /\
    Forall (fun o => Observer._thread o <> Unstarted) (Wrapper._observers w').
Proof.
  refine (start_ok sample_env sample_config fresh_wrapper _ eq_refl _).
  - vm_compute. reflexivity.
  - repeat constructor.
Defined.

Lemma X28_witness :
  Wrapper._is_server_running fresh_wrapper = false /\
  Wrapper.start no_java_env fresh_wrapper
    = (Raise (mkExn FileNotFoundError ["2"; "No such file or directory: 'java'"]),
       Wrapper.set_trace [says ["Starting server..."]] fresh_wrapper).
Proof.
  split; [reflexivity |].
  exact (X28_start_fails_before_any_thread_is_started no_java_env fresh_wrapper _
           eq_refl eq_refl).
Defined.

Lemma X29_witness :
  supervisor_inv fresh_wrapper /\
  supervisor_inv (snd (Wrapper.start sample_env fresh_wrapper)) /\
  supervisor_inv (snd (dispatch_one sample_env (InputEvent "restart") started_wrapper)) /\
  is_Some (Wrapper._server_process started_wrapper).
Proof.
  destruct (X29_supervisor_invariant sample_env) as (Hinit & Hstart & Hdispatch & Hproc).
  assert (Hfresh : supervisor_inv fresh_wrapper).
  { apply (Hinit sample_config). vm_compute. reflexivity. }
  assert (Hstarted : supervisor_inv started_wrapper).
  { intros _. discriminate. }
  split; [exact Hfresh |].
  split; [exact (Hstart _ Hfresh) |].
  split; [exact (Hdispatch _ _ Hstarted) |].
  exact (Hproc _ Hstarted eq_refl).
Defined.
